(** * SmartMeet custom agent: the orchestration shim of
      [vertex-ai-config/custom_agent/agent.py]

    The agent receives a request, optionally dispatches an explicit task to
    one of several HTTP back ends, otherwise asks the decision service and
    issues one heuristic follow-up call, and returns a response envelope.

    The development is a shallow embedding of [agent.py], and of the
    part of [deploy_custom_agent.py] that computes the engine id:
    - Python values that travel as JSON are the inductive type [value];
    - dictionaries are association lists in insertion order;
    - [json.dumps], [json.loads] and [str] are modelled on that fragment;
    - the network, the clock, the process environment and [uuid4] form a
      [World]; outbound calls are recorded in an explicit state;
    - exceptions are an explicit outcome of every effectful function. *)

From Stdlib Require Import ZArith List String Ascii Bool Lia Arith.
From Stdlib Require Import DecimalString.
Import ListNotations.

Set Warnings "-abstract-large-number".

Local Open Scope list_scope.
Local Open Scope string_scope.

(** ** Python values *)

(** The values exchanged with the services.  Numbers are Python [int]s;
    floating-point numbers are left out of the model, as no function of the
    agent computes with a number.  A character of a [string] stands for one
    code point in the range 0..255. *)
#[warnings="-register-all"]
Inductive value : Type :=
| VNone
| VBool (b : bool)
| VInt (n : Z)
| VStr (s : string)
| VList (l : list value)
| VDict (kv : list (string * value)).

Definition dict := list (string * value).

(** [bool(x)]: Python truthiness. *)
Definition truthy (v : value) : bool :=
  match v with
  | VNone => false
  | VBool b => b
  | VInt n => negb (Z.eqb n 0)
  | VStr s => negb (String.eqb s "")
  | VList l => match l with [] => false | _ => true end
  | VDict kv => match kv with [] => false | _ => true end
  end.

(** [d.get(k)]: the value stored under [k], if any. *)
Fixpoint dict_get (k : string) (d : dict) : option value :=
  match d with
  | [] => None
  | (k', v) :: d' => if String.eqb k k' then Some v else dict_get k d'
  end.

(** [d.get(k, default)]. *)
Definition dict_get_default (k : string) (default : value) (d : dict) : value :=
  match dict_get k d with
  | Some v => v
  | None => default
  end.

(** [d[k] = v]: an existing key keeps its position, a new key goes last. *)
Fixpoint dict_set (k : string) (v : value) (d : dict) : dict :=
  match d with
  | [] => [(k, v)]
  | (k', v') :: d' =>
      if String.eqb k k' then (k', v) :: d' else (k', v') :: dict_set k v d'
  end.

(** Number of constructors of a value: the measure for arguments about
    nesting. *)
Fixpoint size (v : value) : nat :=
  match v with
  | VList l => S (fold_right (fun x acc => size x + acc) 0 l)
  | VDict kv => S (fold_right (fun p acc => size (snd p) + acc) 0 kv)
  | _ => 1
  end.

(** ** Characters and strings *)

Definition code (c : ascii) : nat := nat_of_ascii c.

Definition is_digit (c : ascii) : bool :=
  ((48 <=? code c) && (code c <=? 57))%nat.

Definition hex_digit (n : nat) : ascii :=
  ascii_of_nat (if (n <? 10)%nat then 48 + n else 87 + n).

(** Value of a hexadecimal digit, in either case. *)
Definition hex_value (c : ascii) : option nat :=
  let n := code c in
  if ((48 <=? n) && (n <=? 57))%nat then Some (n - 48)
  else if ((97 <=? n) && (n <=? 102))%nat then Some (n - 87)
  else if ((65 <=? n) && (n <=? 70))%nat then Some (n - 55)
  else None.

(** [c.lower()] on the code points 0..255: the ASCII capitals and the
    Latin-1 capitals (all of 192..222 but the multiplication sign). *)
Definition lower_char (c : ascii) : ascii :=
  let n := code c in
  if (((65 <=? n) && (n <=? 90))
      || ((192 <=? n) && (n <=? 222) && negb (n =? 215)))%nat
  then ascii_of_nat (n + 32) else c.

(** [s.lower()]. *)
Fixpoint lower (s : string) : string :=
  match s with
  | EmptyString => EmptyString
  | String c r => String (lower_char c) (lower r)
  end.

(** [s.startswith(p)]. *)
Fixpoint startswith (s p : string) {struct p} : bool :=
  match p with
  | EmptyString => true
  | String a p' =>
      match s with
      | String b s' => Ascii.eqb a b && startswith s' p'
      | EmptyString => false
      end
  end.

(** [s[:n]]. *)
Definition take (n : nat) (s : string) : string := String.substring 0 n s.

(** The text after the first occurrence of [c], if [c] occurs. *)
Fixpoint after_first (c : ascii) (s : string) : option string :=
  match s with
  | EmptyString => None
  | String a r => if Ascii.eqb a c then Some r else after_first c r
  end.

(** [sep.join(l)]. *)
Fixpoint join (sep : string) (l : list string) : string :=
  match l with
  | [] => ""
  | [x] => x
  | x :: r => x ++ sep ++ join sep r
  end.

(** [str(n)] for an [int]. *)
Definition str_of_int (n : Z) : string := NilZero.string_of_int (Z.to_int n).

Fixpoint zeros (n : nat) : string :=
  match n with
  | O => ""
  | S k => String "0" (zeros k)
  end.

(** [s.zfill(width)] for a string of digits. *)
Definition zfill (width : nat) (s : string) : string :=
  zeros (width - String.length s) ++ s.

(** The quotation mark, the apostrophe and the backslash. *)
Definition dquote : ascii := "034"%char.
Definition squote : ascii := "039"%char.
Definition backslash : ascii := "092"%char.

Fixpoint contains (c : ascii) (s : string) : bool :=
  match s with
  | EmptyString => false
  | String a r => Ascii.eqb a c || contains c r
  end.

(** ** [json.dumps]

    [json.dumps(obj, ensure_ascii=False)] with the default separators. *)

(** The escape of one character inside a JSON string: the quotation mark,
    the backslash and the control characters below 32 are escaped. *)
Definition json_escape (c : ascii) : string :=
  let n := code c in
  if Ascii.eqb c dquote then String backslash (String dquote "")
  else if Ascii.eqb c backslash then String backslash (String backslash "")
  else if (n =? 8)%nat then String backslash "b"
  else if (n =? 12)%nat then String backslash "f"
  else if (n =? 10)%nat then String backslash "n"
  else if (n =? 13)%nat then String backslash "r"
  else if (n =? 9)%nat then String backslash "t"
  else if (n <? 32)%nat then
    String backslash
      (String "u" (String "0" (String "0"
        (String (hex_digit (n / 16)) (String (hex_digit (n mod 16)) "")))))
  else String c "".

Fixpoint json_escape_all (s : string) : string :=
  match s with
  | EmptyString => EmptyString
  | String c r => json_escape c ++ json_escape_all r
  end.

Definition encode_str (s : string) : string :=
  String dquote (json_escape_all s) ++ String dquote "".

Fixpoint dumps (v : value) : string :=
  match v with
  | VNone => "null"
  | VBool true => "true"
  | VBool false => "false"
  | VInt n => str_of_int n
  | VStr s => encode_str s
  | VList l => "[" ++ join ", " (map dumps l) ++ "]"
  | VDict kv =>
      "{" ++ join ", "
               (map (fun p => match p with
                              | (k, x) => encode_str k ++ ": " ++ dumps x
                              end) kv) ++ "}"
  end.

(** ** [str] and [repr] *)

(** Characters [repr] shows as they are: the printable ones. *)
Definition printable (c : ascii) : bool :=
  let n := code c in
  ((32 <=? n) && (n <? 127) || (161 <=? n) && negb (n =? 173))%nat.

Definition repr_char (quote c : ascii) : string :=
  let n := code c in
  if Ascii.eqb c quote || Ascii.eqb c backslash then String backslash (String c "")
  else if (n =? 9)%nat then String backslash "t"
  else if (n =? 10)%nat then String backslash "n"
  else if (n =? 13)%nat then String backslash "r"
  else if printable c then String c ""
  else String backslash
         (String "x" (String (hex_digit (n / 16)) (String (hex_digit (n mod 16)) ""))).

Fixpoint repr_chars (quote : ascii) (s : string) : string :=
  match s with
  | EmptyString => EmptyString
  | String c r => repr_char quote c ++ repr_chars quote r
  end.

(** [repr(s)] for a [str]: apostrophes around the text, quotation marks
    when the text holds an apostrophe and no quotation mark. *)
Definition repr_str (s : string) : string :=
  let quote := if contains squote s && negb (contains dquote s)
               then dquote else squote in
  String quote (repr_chars quote s) ++ String quote "".

Fixpoint repr (v : value) : string :=
  match v with
  | VNone => "None"
  | VBool true => "True"
  | VBool false => "False"
  | VInt n => str_of_int n
  | VStr s => repr_str s
  | VList l => "[" ++ join ", " (map repr l) ++ "]"
  | VDict kv =>
      "{" ++ join ", "
               (map (fun p => match p with
                              | (k, x) => repr_str k ++ ": " ++ repr x
                              end) kv) ++ "}"
  end.

(** [str(x)]: the text itself for a [str], [repr] for anything else. *)
Definition str (v : value) : string :=
  match v with
  | VStr s => s
  | _ => repr v
  end.

(** ** [json.loads]

    A recursive-descent reader following the scanner of Python's [json]
    module: white space is skipped around structural characters, strings
    are read strictly (no raw control character), a repeated key keeps its
    first position and its last value.  [None] stands for any exception of
    [json.loads].  On the fragment of [value]: a number with a fraction or
    an exponent and an escape beyond code point 255 are not read. *)

Definition is_ws (c : ascii) : bool :=
  let n := code c in
  ((n =? 32) || (n =? 9) || (n =? 10) || (n =? 13))%nat.

Fixpoint skip_ws (s : string) : string :=
  match s with
  | String c r => if is_ws c then skip_ws r else s
  | EmptyString => EmptyString
  end.

(** [s[n:]]. *)
Fixpoint drop (n : nat) (s : string) : string :=
  match n, s with
  | S k, String _ r => drop k r
  | _, _ => s
  end.

(** The character an escape letter stands for. *)
Definition unescape (c : ascii) : option ascii :=
  if Ascii.eqb c dquote then Some dquote
  else if Ascii.eqb c backslash then Some backslash
  else if Ascii.eqb c "/" then Some "/"%char
  else if Ascii.eqb c "b" then Some (ascii_of_nat 8)
  else if Ascii.eqb c "f" then Some (ascii_of_nat 12)
  else if Ascii.eqb c "n" then Some (ascii_of_nat 10)
  else if Ascii.eqb c "r" then Some (ascii_of_nat 13)
  else if Ascii.eqb c "t" then Some (ascii_of_nat 9)
  else None.

(** The code point of four hexadecimal digits. *)
Definition hex4 (a b c d : ascii) : option nat :=
  match hex_value a, hex_value b, hex_value c, hex_value d with
  | Some x, Some y, Some z, Some w => Some (((x * 16 + y) * 16 + z) * 16 + w)
  | _, _, _, _ => None
  end.

(** Reads a string after its opening quotation mark: the text and what
    follows the closing quotation mark. *)
Fixpoint scan_string (s : string) : option (string * string) :=
  match s with
  | EmptyString => None
  | String c r =>
      if Ascii.eqb c dquote then Some ("", r)
      else if Ascii.eqb c backslash then
        match r with
        | EmptyString => None
        | String e r1 =>
            if Ascii.eqb e "u" then
              match r1 with
              | String h1 (String h2 (String h3 (String h4 r2))) =>
                  match hex4 h1 h2 h3 h4 with
                  | Some n =>
                      if (n <? 256)%nat then
                        match scan_string r2 with
                        | Some (t, rest) => Some (String (ascii_of_nat n) t, rest)
                        | None => None
                        end
                      else None
                  | None => None
                  end
              | _ => None
              end
            else
              match unescape e with
              | Some x =>
                  match scan_string r1 with
                  | Some (t, rest) => Some (String x t, rest)
                  | None => None
                  end
              | None => None
              end
        end
      else if (code c <? 32)%nat then None
      else
        match scan_string r with
        | Some (t, rest) => Some (String c t, rest)
        | None => None
        end
  end.

(** The leading decimal digits of a text and what follows them. *)
Fixpoint scan_digits (s : string) : string * string :=
  match s with
  | String c r =>
      if is_digit c then
        let (d, rest) := scan_digits r in (String c d, rest)
      else ("", s)
  | EmptyString => ("", "")
  end.

Fixpoint digits_value (acc : Z) (s : string) : Z :=
  match s with
  | EmptyString => acc
  | String c r => digits_value (10 * acc + Z.of_nat (code c - 48)) r
  end.

(** The integer part of a JSON number, without sign: a single zero, or
    digits that do not start with a zero. *)
Definition scan_natural (s : string) : option (Z * string) :=
  match s with
  | String c r =>
      if Ascii.eqb c "0" then Some (0%Z, r)
      else if is_digit c then
        let (d, rest) := scan_digits s in Some (digits_value 0 d, rest)
      else None
  | EmptyString => None
  end.

(** A fraction or an exponent follows: the number is a [float]. *)
Definition float_follows (s : string) : bool :=
  match s with
  | String c _ => Ascii.eqb c "." || Ascii.eqb c "e" || Ascii.eqb c "E"
  | EmptyString => false
  end.

Definition scan_number (s : string) : option (value * string) :=
  let (neg, body) :=
    match s with
    | String c r => if Ascii.eqb c "-" then (true, r) else (false, s)
    | EmptyString => (false, s)
    end in
  match scan_natural body with
  | Some (n, rest) =>
      if float_follows rest then None
      else Some (VInt (if neg then (- n)%Z else n), rest)
  | None => None
  end.

Fixpoint parse_value (fuel : nat) (s : string) {struct fuel}
  : option (value * string) :=
  match fuel with
  | O => None
  | S f =>
      match s with
      | EmptyString => None
      | String c r =>
          if Ascii.eqb c dquote then
            match scan_string r with
            | Some (t, rest) => Some (VStr t, rest)
            | None => None
            end
          else if Ascii.eqb c "{" then
            match skip_ws r with
            | String "}" rest => Some (VDict [], rest)
            | r1 => parse_members f [] r1
            end
          else if Ascii.eqb c "[" then
            match skip_ws r with
            | String "]" rest => Some (VList [], rest)
            | r1 => parse_items f [] r1
            end
          else if startswith s "null" then Some (VNone, drop 4 s)
          else if startswith s "true" then Some (VBool true, drop 4 s)
          else if startswith s "false" then Some (VBool false, drop 5 s)
          else scan_number s
      end
  end

with parse_items (fuel : nat) (acc : list value) (s : string) {struct fuel}
  : option (value * string) :=
  match fuel with
  | O => None
  | S f =>
      match parse_value f s with
      | Some (v, r) =>
          match skip_ws r with
          | String "]" rest => Some (VList (acc ++ [v])%list, rest)
          | String "," rest => parse_items f (acc ++ [v])%list (skip_ws rest)
          | _ => None
          end
      | None => None
      end
  end

with parse_members (fuel : nat) (acc : dict) (s : string) {struct fuel}
  : option (value * string) :=
  match fuel with
  | O => None
  | S f =>
      match s with
      | String c r =>
          if Ascii.eqb c dquote then
            match scan_string r with
            | Some (k, r1) =>
                match skip_ws r1 with
                | String ":" r2 =>
                    match parse_value f (skip_ws r2) with
                    | Some (v, r3) =>
                        match skip_ws r3 with
                        | String "}" rest => Some (VDict (dict_set k v acc), rest)
                        | String "," rest =>
                            parse_members f (dict_set k v acc) (skip_ws rest)
                        | _ => None
                        end
                    | None => None
                    end
                | _ => None
                end
            | None => None
            end
          else None
      | EmptyString => None
      end
  end.

(** [json.loads(text)]: the value of the whole text, white space allowed
    around it. *)
Definition loads (text : string) : option value :=
  match parse_value (2 * String.length text + 2) (skip_ws text) with
  | Some (v, rest) =>
      match skip_ws rest with
      | EmptyString => Some v
      | _ => None
      end
  | None => None
  end.

(** ** The world outside the agent *)

(** One outbound [POST]: [urlrequest.Request(url, data, headers, "POST")]
    opened with a timeout.  [payload] is the value whose [json.dumps] text
    is the body. *)
Record request : Type := mk_request {
  url : string;
  headers : list (string * string);
  payload : value;
  timeout : Z
}.

(** What [urlopen] and the reading of the body do for one request. *)
Inductive reply : Type :=
| Body (text : string)
    (** a response; [text] is its body, decoded as UTF-8 *)
| HTTPError (code : Z) (reason : string)
    (** [urllib.error.HTTPError] *)
| URLError (description : string)
    (** [urllib.error.URLError]; [description] is [str(e)] *)
| Failure (description : string).
    (** any other exception: a read that times out, a dropped connection,
        a body that is not UTF-8 *)

Record World : Type := mk_world {
  getenv : string -> option string;
    (** the process environment at import time *)
  uuid4_hex : string;
    (** [uuid.uuid4().hex] as drawn for the request *)
  utcnow : nat -> Z;
    (** the n-th reading of the clock, in whole seconds since 1970-01-01 *)
  urlopen : nat -> request -> reply
    (** the answer to the n-th outbound call *)
}.

(** The state a request threads through: the outbound calls made so far,
    oldest first, each with its answer, and the number of clock readings. *)
Record state : Type := mk_state {
  calls : list (request * reply);
  clock_reads : nat
}.

Definition initial : state := {| calls := []; clock_reads := 0 |}.

(** ** Exceptions and the monad of the agent *)

Inductive exn : Type :=
| ValueError (message : string)
| AttributeError (message : string)
| IndexError (message : string)
| KeyError (message : string)
| OtherError (message : string).

(** [str(e)]. *)
Definition str_exn (e : exn) : string :=
  match e with
  | ValueError m | AttributeError m | IndexError m | KeyError m
  | OtherError m => m
  end.

Inductive outcome (A : Type) : Type :=
| Return (a : A)
| Raise (e : exn).
Arguments Return {A} a.
Arguments Raise {A} e.

Definition M (A : Type) : Type := state -> outcome A * state.

Definition ret {A} (a : A) : M A := fun st => (Return a, st).

Definition raise {A} (e : exn) : M A := fun st => (Raise e, st).

Definition bind {A B} (m : M A) (k : A -> M B) : M B :=
  fun st =>
    match m st with
    | (Return a, st') => k a st'
    | (Raise e, st') => (Raise e, st')
    end.

(** A computation without effect on the state. *)
Definition lift {A} (o : outcome A) : M A := fun st => (o, st).

(** [try: body except Exception as e: handler]. *)
Definition try_except {A} (body : M A) (handler : exn -> M A) : M A :=
  fun st =>
    match body st with
    | (Return a, st') => (Return a, st')
    | (Raise e, st') => handler e st'
    end.

Notation "x <- m ;; k" := (bind m (fun x => k))
  (at level 61, m at next level, right associativity).
Notation "' p <- m ;; k" := (bind m (fun x => match x with p => k end))
  (at level 61, p pattern, m at next level, right associativity).

(** ** Dates *)

(** Year, month and day of a number of days since 1970-01-01, in the
    proleptic Gregorian calendar of [datetime]. *)
Definition civil_from_days (days : Z) : Z * Z * Z :=
  let z := (days + 719468)%Z in
  let era := (z / 146097)%Z in
  let doe := (z - era * 146097)%Z in
  let yoe := ((doe - doe / 1460 + doe / 36524 - doe / 146096) / 365)%Z in
  let doy := (doe - (365 * yoe + yoe / 4 - yoe / 100))%Z in
  let mp := ((5 * doy + 2) / 153)%Z in
  let d := (doy - (153 * mp + 2) / 5 + 1)%Z in
  let m := (if mp <? 10 then mp + 3 else mp - 9)%Z in
  let y := (yoe + era * 400 + (if m <=? 2 then 1 else 0))%Z in
  (y, m, d).

Definition two (n : Z) : string := zfill 2 (str_of_int n).

(** [t.isoformat()] for a [datetime] without microseconds, given in
    seconds since 1970-01-01.  The clock is taken to lie in the years
    [datetime] can hold. *)
Definition isoformat (seconds : Z) : string :=
  let days := (seconds / 86400)%Z in
  let rest := (seconds mod 86400)%Z in
  let '(y, m, d) := civil_from_days days in
  zfill 4 (str_of_int y) ++ "-" ++ two m ++ "-" ++ two d ++ "T"
    ++ two (rest / 3600) ++ ":" ++ two (rest mod 3600 / 60) ++ ":"
    ++ two (rest mod 60).

(** ** The agent *)

Section Agent.

Variable W : World.

(** *** Configuration *)

(** [os.getenv(name, default)]. *)
Definition getenv_default (name default : string) : string :=
  match getenv W name with
  | Some v => v
  | None => default
  end.

Definition PROJECT_ID : string :=
  getenv_default "GOOGLE_CLOUD_PROJECT_ID" "smartmeet-470807".

Definition LOCATION : string :=
  getenv_default "VERTEX_AI_LOCATION" "asia-northeast1".

Definition CF_ENDPOINTS : list (string * string) :=
  [ ("calendar",
     getenv_default "CF_CALENDAR_URL"
       "https://asia-northeast1-smartmeet-470807.cloudfunctions.net/calendarTool");
    ("gmail",
     getenv_default "CF_GMAIL_URL"
       "https://asia-northeast1-smartmeet-470807.cloudfunctions.net/gmailTool");
    ("drive",
     getenv_default "CF_DRIVE_URL"
       "https://asia-northeast1-smartmeet-470807.cloudfunctions.net/driveTool");
    ("decision",
     getenv_default "CF_DECISION_URL"
       "https://asia-northeast1-smartmeet-470807.cloudfunctions.net/decisionTool");
    ("data_pipeline",
     getenv_default "CF_DATA_PIPELINE_URL"
       "https://asia-northeast1-smartmeet-470807.cloudfunctions.net/dataPipeline") ].

Definition BACKEND_BASE : string :=
  getenv_default "BACKEND_BASE_URL"
    "https://smartmeet-backend-184930122798.asia-northeast1.run.app".

Definition SHARED_SECRET : string := getenv_default "SM_SHARED_SECRET" "".

Fixpoint assoc (k : string) (l : list (string * string)) : option string :=
  match l with
  | [] => None
  | (k', v) :: r => if String.eqb k k' then Some v else assoc k r
  end.

(** [CF_ENDPOINTS[name]]. *)
Definition endpoint (name : string) : outcome string :=
  match assoc name CF_ENDPOINTS with
  | Some u => Return u
  | None => Raise (KeyError (repr_str name))
  end.

(** *** Utils *)

Definition _headers (trace_id : string) : list (string * string) :=
  let h := [ ("Content-Type", "application/json");
             ("X-Trace-Id", trace_id);
             ("X-Project", PROJECT_ID) ] in
  if negb (String.eqb SHARED_SECRET "")
  then (h ++ [("X-Shared-Secret", SHARED_SECRET)])%list
  else h.

(** What [_post_json] makes of the answer to its request: the value it
    returns, or the exception it lets through. *)
Definition response_value (r : reply) : outcome value :=
  match r with
  | Body text =>
      match loads text with
      | Some v => Return v
      | None => Return (VDict [("success", VBool true); ("text", VStr text)])
      end
  | HTTPError code reason =>
      Return (VDict [("success", VBool false); ("status", VInt code);
                     ("error", VStr reason)])
  | URLError description =>
      Return (VDict [("success", VBool false); ("error", VStr description)])
  | Failure description => Raise (OtherError description)
  end.

Definition _post_json_timeout (url : string) (payload : value)
    (trace_id : string) (timeout : Z) : M value :=
  fun st =>
    let req := {| url := url; headers := _headers trace_id;
                  payload := payload; timeout := timeout |} in
    let rep := urlopen W (List.length (calls st)) req in
    (response_value rep,
     {| calls := (calls st ++ [(req, rep)])%list;
        clock_reads := clock_reads st |}).

(** [_post_json(url, payload, trace_id)], with [timeout=25]. *)
Definition _post_json (url : string) (payload : value) (trace_id : string)
  : M value :=
  _post_json_timeout url payload trace_id 25.

Definition type_name (v : value) : string :=
  match v with
  | VNone => "NoneType"
  | VBool _ => "bool"
  | VInt _ => "int"
  | VStr _ => "str"
  | VList _ => "list"
  | VDict _ => "dict"
  end.

(** [x.get(k, default)] on any value: only a [dict] has [get]. *)
Definition get_method (x : value) (k : string) (default : value)
  : outcome value :=
  match x with
  | VDict kv => Return (dict_get_default k default kv)
  | _ => Raise (AttributeError
                  ("'" ++ type_name x ++ "' object has no attribute 'get'"))
  end.

(** [x is not False]. *)
Definition is_not_False (x : value) : bool :=
  match x with
  | VBool false => false
  | _ => true
  end.

(** [_ok(r)]: [bool(r) and r.get("success", True) is not False].  The
    result is only ever used for its truth value. *)
Definition _ok (r : value) : outcome bool :=
  if truthy r then
    match get_method r "success" (VBool true) with
    | Return s => Return (is_not_False s)
    | Raise e => Raise e
    end
  else Return false.

(** *** Helpers *)

Definition _safe_slice_limit (obj : value) (limit : nat) : value :=
  let text := dumps obj in
  if (limit <? String.length text)%nat then
    match loads (take limit text) with
    | Some v => v
    | None => obj
    end
  else obj.

(** [_safe_slice(obj)], with [limit=6000]. *)
Definition _safe_slice (obj : value) : value := _safe_slice_limit obj 6000.

(** [_safe_str(x)] for a [str]. *)
Definition _safe_str (x : string) : string := take 2000 x.

Definition _iso_now : M string :=
  fun st =>
    (Return (isoformat (utcnow W (clock_reads st)) ++ "Z"),
     {| calls := calls st; clock_reads := S (clock_reads st) |}).

Definition _iso_in_days (days : Z) : M string :=
  fun st =>
    (Return (isoformat (utcnow W (clock_reads st) + days * 86400) ++ "Z"),
     {| calls := calls st; clock_reads := S (clock_reads st) |}).

(** *** Internal execution *)

(** [task.split(".", 1)[1]]. *)
Definition action_of (task : string) : outcome string :=
  match after_first "." task with
  | Some a => Return a
  | None => Raise (IndexError "list index out of range")
  end.

(** The call of one Cloud Functions tool:
    [_post_json(CF_ENDPOINTS[name], {"action": ..., "parameters": params},
    trace_id)]. *)
Definition call_tool (name task : string) (params : dict) (trace_id : string)
  : M value :=
  u <- lift (endpoint name) ;;
  a <- lift (action_of task) ;;
  _post_json u (VDict [("action", VStr a); ("parameters", VDict params)])
    trace_id.

Definition _execute_task (task : string) (params : dict) (trace_id : string)
  : M value :=
  if startswith task "calendar." then call_tool "calendar" task params trace_id
  else if startswith task "gmail." then call_tool "gmail" task params trace_id
  else if startswith task "drive." then call_tool "drive" task params trace_id
  else if startswith task "decision." then
    call_tool "decision" task params trace_id
  else if startswith task "data_pipeline." then
    call_tool "data_pipeline" task params trace_id
  else if String.eqb task "backend.minutes" then
    _post_json (BACKEND_BASE ++ "/api/agent/minutes/generate") (VDict params)
      trace_id
  else if String.eqb task "backend.mindmap" then
    _post_json (BACKEND_BASE ++ "/api/speech/generate-mindmap") (VDict params)
      trace_id
  else raise (ValueError ("Unknown task: " ++ task)).

(** *** The next-action heuristic *)

(** [a or b]. *)
Definition py_or (a b : value) : value := if truthy a then a else b.

(** [decision_resp.get("result") or decision_resp]. *)
Definition select_result (decision_resp : value) : outcome value :=
  match get_method decision_resp "result" VNone with
  | Return r => Return (py_or r decision_resp)
  | Raise e => Raise e
  end.

(** The two assignments of [_suggest_next_action]: the value of
    [urgency]. *)
Definition read_urgency (decision_resp : value) : outcome value :=
  match select_result decision_resp with
  | Return result =>
      get_method (py_or result (VDict [])) "urgencyLevel" (VStr "")
  | Raise e => Raise e
  end.

(** [isinstance(urgency, str) and urgency.lower() in {"high", "urgent"}]. *)
Definition is_urgent (urgency : value) : bool :=
  match urgency with
  | VStr u => String.eqb (lower u) "high" || String.eqb (lower u) "urgent"
  | _ => false
  end.

Definition _suggest_next_action (decision_resp : value)
  : M (option (string * dict)) :=
  try_except
    (urgency <- lift (read_urgency decision_resp) ;;
     if is_urgent urgency then
       time_min <- _iso_now ;;
       time_max <- _iso_in_days 7 ;;
       ret (Some ("calendar.get_events",
                  [("timeMin", VStr time_min); ("timeMax", VStr time_max);
                   ("maxResults", VInt 50)]))
     else
       ret (Some ("gmail.search_emails",
                  [("query", VStr "meeting"); ("maxResults", VInt 20)])))
    (fun _ => ret None).

(** *** The entry point *)

(** One entry of [tool_calls]. *)
Definition tool_call (task : string) (params : dict) (result : value) : value :=
  VDict [("task", VStr task); ("params", VDict params);
         ("result", _safe_slice result)].

(** One entry of [errors]. *)
Definition error_record (task message : string) : value :=
  VDict [("task", VStr task); ("message", VStr message)].

(** The dictionary [query] returns. *)
Definition envelope (trace_id input routed_task : string)
    (tool_calls : list value) (output : value) (errors : list value) : value :=
  VDict [("traceId", VStr trace_id); ("input", VStr input);
         ("routedTask", VStr routed_task); ("toolCalls", VList tool_calls);
         ("output", output); ("errors", VList errors)].

Definition decision_payload (input : string) : value :=
  VDict [("action", VStr "analyze_situation");
         ("parameters", VDict [("context", VStr input)])].

(** The follow-up step of [query]: the [try] around the suggested call.
    It yields the lists [tool_calls] and [errors] as they stand after it. *)
Definition follow_up (next_action : option (string * dict))
    (trace_id : string) (tool_calls errors : list value)
  : M (list value * list value) :=
  match next_action with
  | Some (action_task, action_params) =>
      try_except
        (action_result <- _execute_task action_task action_params trace_id ;;
         ret ((tool_calls
                 ++ [tool_call action_task action_params action_result])%list,
              errors))
        (fun e =>
           ret (tool_calls,
                (errors ++ [error_record action_task (str_exn e)])%list))
  | None => ret (tool_calls, errors)
  end.

(** [routed_task or next_action[0] if next_action else ""]. *)
Definition final_routed_task (routed_task : string)
    (next_action : option (string * dict)) : string :=
  match next_action with
  | Some (action_task, _) =>
      if negb (String.eqb routed_task "") then routed_task else action_task
  | None => ""
  end.

(** The automatic path of [query]: everything from the decision analysis
    on.  [errors] is the list as the explicit attempt left it. *)
Definition automatic (input trace_id routed_task : string)
    (errors : list value) : M value :=
  u <- lift (endpoint "decision") ;;
  decision_resp <- _post_json u (decision_payload input) trace_id ;;
  let tool_calls :=
    [tool_call "decision.analyze_situation"
       [("context", VStr (_safe_str input))] decision_resp] in
  ok <- lift (_ok decision_resp) ;;
  if negb ok then
    ret (envelope trace_id input routed_task tool_calls
           (VDict [("note", VStr "decision analysis failed")])
           (errors ++ [error_record "decision.analyze_situation"
                         (str decision_resp)])%list)
  else
    next_action <- _suggest_next_action decision_resp ;;
    '(tool_calls', errors') <-
      follow_up next_action trace_id tool_calls errors ;;
    ret (envelope trace_id input (final_routed_task routed_task next_action)
           tool_calls' decision_resp errors').

(** [query(input, task, parameters)]. *)
Definition query (input : string) (task : option string)
    (parameters : option dict) : M value :=
  let trace_id := take 16 (uuid4_hex W) in
  let params := match parameters with Some d => d | None => [] end in
  let routed_task := match task with Some t => t | None => "" end in
  match task with
  | Some t =>
      if negb (String.eqb t "") then
        try_except
          (result <- _execute_task t params trace_id ;;
           ret (envelope trace_id input t [tool_call t params result]
                  result []))
          (fun e =>
             automatic input trace_id routed_task
               [error_record t (str_exn e)])
      else automatic input trace_id routed_task []
  | None => automatic input trace_id routed_task []
  end.

End Agent.

(** ** Reading an envelope *)

(** [d[k]] for a value that is a dictionary. *)
Definition field (k : string) (v : value) : option value :=
  match v with
  | VDict kv => dict_get k kv
  | _ => None
  end.

(** The keys of a dictionary, in order. *)
Definition keys (v : value) : list string :=
  match v with
  | VDict kv => map fst kv
  | _ => []
  end.

(** The entries of the list stored under [k]. *)
Definition entries (k : string) (v : value) : list value :=
  match field k v with
  | Some (VList l) => l
  | _ => []
  end.

(** ** The task grammar of the specification *)

Definition namespaces : list string :=
  ["calendar"; "gmail"; "drive"; "decision"; "data_pipeline"].

Definition shortcuts : list string := ["backend.minutes"; "backend.mindmap"].

(** A task string of one of the seven recognised forms: a name space, a
    dot and an action, or one of the two literal shortcuts. *)
Definition recognised (task : string) : Prop :=
  (exists ns action, In ns namespaces /\ task = ns ++ "." ++ action)
  \/ In task shortcuts.

(** An inline failure value, or no value where one was expected: what the
    specification calls a failure indicator. *)
Definition failure_indicator (r : value) : Prop :=
  truthy r = false
  \/ exists kv, r = VDict kv /\ dict_get "success" kv = Some (VBool false).

(** The state after one more outbound call. *)
Definition record_call (st : state) (req : request) (rep : reply) : state :=
  {| calls := (calls st ++ [(req, rep)])%list; clock_reads := clock_reads st |}.

(** The request [_post_json] sends. *)
Definition post_request (W : World) (u : string) (body : value)
    (trace_id : string) : request :=
  {| url := u; headers := _headers W trace_id; payload := body;
     timeout := 25 |}.

(** ** The vocabulary of the properties *)

Definition quiet_world : World :=
  {| getenv := fun _ => None;
     uuid4_hex := "0123456789abcdef0123456789abcdef";
     utcnow := fun _ => 1793736000%Z;
     urlopen := fun _ _ => Body "{}" |}.

(** The state after the two clock readings of the calendar branch. *)
Definition after_clock (st : state) : state :=
  {| calls := calls st; clock_reads := S (S (clock_reads st)) |}.

(** The parameters of the calendar follow-up: now and now plus seven days,
    each read from the clock in turn. *)
Definition calendar_params (W : World) (st : state) : dict :=
  [("timeMin", VStr (isoformat (utcnow W (clock_reads st)) ++ "Z"));
   ("timeMax",
    VStr (isoformat (utcnow W (S (clock_reads st)) + 7 * 86400) ++ "Z"));
   ("maxResults", VInt 50)].

Definition gmail_params : dict :=
  [("query", VStr "meeting"); ("maxResults", VInt 20)].

(** The follow-up pair the heuristic yields, and the state it leaves. *)
Definition suggestion (W : World) (d : value) (st : state)
  : option (string * dict) * state :=
  match read_urgency d with
  | Return u =>
      if is_urgent u
      then (Some ("calendar.get_events", calendar_params W st), after_clock st)
      else (Some ("gmail.search_emails", gmail_params), st)
  | Raise _ => (None, st)
  end.

(** [CF_ENDPOINTS[name]] for a name that is configured. *)
Definition endpoint_url (W : World) (name : string) : string :=
  match assoc name (CF_ENDPOINTS W) with
  | Some u => u
  | None => ""
  end.

(** The request of the decision analysis. *)
Definition decision_request (W : World) (input trace_id : string) : request :=
  post_request W (endpoint_url W "decision") (decision_payload input) trace_id.

(** The request of a tool call. *)
Definition tool_request (W : World) (name action : string) (params : dict)
    (trace_id : string) : request :=
  post_request W (endpoint_url W name)
    (VDict [("action", VStr action); ("parameters", VDict params)]) trace_id.

(** The request of a follow-up task. *)
Definition follow_up_request (W : World) (task : string) (params : dict)
    (trace_id : string) : request :=
  if String.eqb task "calendar.get_events"
  then tool_request W "calendar" "get_events" params trace_id
  else tool_request W "gmail" "search_emails" params trace_id.

(** The answer the world gives to a request made in state [st]. *)
Definition answer (W : World) (st : state) (req : request) : reply :=
  urlopen W (List.length (calls st)) req.

Definition decision_record (input : string) (r : value) : value :=
  tool_call "decision.analyze_situation" [("context", VStr (_safe_str input))] r.

Definition failure_note : value :=
  VDict [("note", VStr "decision analysis failed")].

(** Every way the automatic path can run from state [st], where [rep] is
    the answer to the decision request and [st1] the state after it. *)
Inductive automatic_run (W : World) (input trace_id routed_task : string)
    (errors : list value) (st : state) : outcome value * state -> Prop :=
| run_call_raises (e : exn) :
    let req := decision_request W input trace_id in
    let rep := answer W st req in
    response_value rep = Raise e ->
    automatic_run W input trace_id routed_task errors st
      (Raise e, record_call st req rep)
| run_ok_raises (r : value) (e : exn) :
    let req := decision_request W input trace_id in
    let rep := answer W st req in
    response_value rep = Return r ->
    _ok r = Raise e ->
    automatic_run W input trace_id routed_task errors st
      (Raise e, record_call st req rep)
| run_decision_failed (r : value) :
    let req := decision_request W input trace_id in
    let rep := answer W st req in
    response_value rep = Return r ->
    _ok r = Return false ->
    automatic_run W input trace_id routed_task errors st
      (Return (envelope trace_id input routed_task [decision_record input r]
                 failure_note
                 (errors ++ [error_record "decision.analyze_situation"
                               (str r)])%list),
       record_call st req rep)
| run_no_follow_up (r : value) :
    let req := decision_request W input trace_id in
    let rep := answer W st req in
    let st1 := record_call st req rep in
    response_value rep = Return r ->
    _ok r = Return true ->
    fst (suggestion W r st1) = None ->
    automatic_run W input trace_id routed_task errors st
      (Return (envelope trace_id input "" [decision_record input r] r errors),
       st1)
| run_follow_up (r : value) (task : string) (params : dict) (r2 : value) :
    let req := decision_request W input trace_id in
    let rep := answer W st req in
    let st1 := record_call st req rep in
    let st2 := snd (suggestion W r st1) in
    let req2 := follow_up_request W task params trace_id in
    let rep2 := answer W st2 req2 in
    response_value rep = Return r ->
    _ok r = Return true ->
    fst (suggestion W r st1) = Some (task, params) ->
    response_value rep2 = Return r2 ->
    automatic_run W input trace_id routed_task errors st
      (Return (envelope trace_id input
                 (final_routed_task routed_task (Some (task, params)))
                 [decision_record input r; tool_call task params r2] r errors),
       record_call st2 req2 rep2)
| run_follow_up_raises (r : value) (task : string) (params : dict) (e : exn) :
    let req := decision_request W input trace_id in
    let rep := answer W st req in
    let st1 := record_call st req rep in
    let st2 := snd (suggestion W r st1) in
    let req2 := follow_up_request W task params trace_id in
    let rep2 := answer W st2 req2 in
    response_value rep = Return r ->
    _ok r = Return true ->
    fst (suggestion W r st1) = Some (task, params) ->
    response_value rep2 = Raise e ->
    automatic_run W input trace_id routed_task errors st
      (Return (envelope trace_id input
                 (final_routed_task routed_task (Some (task, params)))
                 [decision_record input r] r
                 (errors ++ [error_record task (str_exn e)])%list),
       record_call st2 req2 rep2).

(** [uuid.uuid4().hex[:16]]. *)
Definition trace_of (W : World) : string := take 16 (uuid4_hex W).

(** [parameters or {}]. *)
Definition params_of (parameters : option dict) : dict :=
  match parameters with
  | Some d => d
  | None => []
  end.

(** [task or ""]. *)
Definition routed_of (task : option string) : string :=
  match task with
  | Some t => t
  | None => ""
  end.

(** The task [query] dispatches directly: one that is given and not
    empty. *)
Definition explicit (task : option string) : option string :=
  match task with
  | Some t => if String.eqb t "" then None else Some t
  | None => None
  end.

(** The invocation reaches the automatic path, with the list [errors] and
    in the state [st1]: no explicit task was given, or its dispatch
    raised. *)
Inductive reaches_analysis (W : World) (task : option string)
    (parameters : option dict) (st : state) : list value -> state -> Prop :=
| reaches_without_task :
    explicit task = None ->
    reaches_analysis W task parameters st [] st
| reaches_after_failure (t : string) (e : exn) (st1 : state) :
    explicit task = Some t ->
    _execute_task W t (params_of parameters) (trace_of W) st = (Raise e, st1) ->
    reaches_analysis W task parameters st [error_record t (str_exn e)] st1.

(** Every way [query] can run. *)
Inductive query_run (W : World) (input : string) (task : option string)
    (parameters : option dict) (st : state) : outcome value * state -> Prop :=
| run_direct (t : string) (result : value) (st1 : state) :
    explicit task = Some t ->
    _execute_task W t (params_of parameters) (trace_of W) st
    = (Return result, st1) ->
    query_run W input task parameters st
      (Return (envelope (trace_of W) input t
                 [tool_call t (params_of parameters) result] result []), st1)
| run_automatic (errors : list value) (st1 : state)
    (o : outcome value * state) :
    reaches_analysis W task parameters st errors st1 ->
    automatic_run W input (trace_of W) (routed_of task) errors st1 o ->
    query_run W input task parameters st o.

(** The call came back with a value: [_post_json] returned. *)
Definition answered (c : request * reply) : bool :=
  match response_value (snd c) with
  | Return _ => true
  | Raise _ => false
  end.

(** The value a computation returned, [VNone] if it raised. *)
Definition returned (o : outcome value * state) : value :=
  match fst o with
  | Return v => v
  | Raise _ => VNone
  end.

(** The calls made between two states. *)
Definition calls_since (st st' : state) : list (request * reply) :=
  skipn (List.length (calls st)) (calls st').

(** The sentence of the specification on the two lists of the envelope:
    [toolCalls] is as long as the list of calls attempted, at most two, and
    [errors] has an entry only if an attempted call raised or gave a
    failure indicator. *)
Definition stated_call_accounting (W : World) (input : string)
    (task : option string) (parameters : option dict) (st : state) : Prop :=
  forall env st',
    query W input task parameters st = (Return env, st') ->
    List.length (entries "toolCalls" env)
    = List.length (calls_since st st')
    /\ List.length (calls_since st st') <= 2
    /\ (entries "errors" env <> [] ->
        exists c, In c (calls_since st st')
                  /\ (answered c = false
                      \/ exists r, response_value (snd c) = Return r
                                   /\ failure_indicator r)).

(** A world whose first call ends in an exception that is neither
    [HTTPError] nor [URLError], and whose later calls answer [{}]. *)
Definition flaky_world : World :=
  {| getenv := fun _ => None;
     uuid4_hex := "0123456789abcdef0123456789abcdef";
     utcnow := fun _ => 1793736000%Z;
     urlopen := fun n _ =>
       match n with
       | O => Failure "The read operation timed out"
       | S _ => Body "{}"
       end |}.

(** The envelope of the early return. *)
Definition failure_envelope (W : World) (input : string)
    (task : option string) (errors : list value) (r : value) : value :=
  envelope (trace_of W) input (routed_of task) [decision_record input r]
    failure_note
    (errors ++ [error_record "decision.analyze_situation" (str r)])%list.

(** Equal up to the case of the letters. *)
Definition ci_equal (a b : string) : Prop := lower a = lower b.

(** The urgency levels that ask for the calendar. *)
Definition urgent_text (s : string) : Prop :=
  ci_equal s "high" \/ ci_equal s "urgent".

(** The decision result carries an urgency that is such a string. *)
Definition urgent (d : value) : Prop :=
  exists s, read_urgency d = Return (VStr s) /\ urgent_text s.

(** The two sentences of the specification on the heuristic, for one
    decision result: the calendar pair for an urgent one, the mail pair for
    every other one. *)
Definition stated_heuristic (W : World) (d : value) (st : state) : Prop :=
  (urgent d ->
   fst (_suggest_next_action W d st)
   = Return (Some ("calendar.get_events", calendar_params W st)))
  /\ (~ urgent d ->
      fst (_suggest_next_action W d st)
      = Return (Some ("gmail.search_emails", gmail_params))).

(** The sentence of the specification on the source of the urgency: the
    mapping under the [result] key when that key exists, the top-level
    mapping otherwise. *)
Definition stated_urgency_source (kv : dict) : Prop :=
  read_urgency (VDict kv)
  = match dict_get "result" kv with
    | Some nested => get_method nested "urgencyLevel" (VStr "")
    | None => Return (dict_get_default "urgencyLevel" (VStr "") kv)
    end.

(** The sentence of the specification on an explicit task whose dispatch
    fails: the error is recorded and the envelope's output is the result of
    the decision analysis. *)
Definition stated_fall_through (W : World) (input t : string)
    (parameters : option dict) (st : state) : Prop :=
  forall e st1 env st',
    _execute_task W t (params_of parameters) (trace_of W) st = (Raise e, st1) ->
    query W input (Some t) parameters st = (Return env, st') ->
    hd_error (entries "errors" env) = Some (error_record t (str_exn e))
    /\ exists r,
         response_value (answer W st1 (decision_request W input (trace_of W)))
         = Return r
         /\ field "output" env = Some r.

(** A world in which every call ends in HTTP status 500. *)
Definition failing_world : World :=
  {| getenv := fun _ => None;
     uuid4_hex := "0123456789abcdef0123456789abcdef";
     utcnow := fun _ => 1793736000%Z;
     urlopen := fun _ _ => HTTPError 500 "Internal Server Error" |}.

(** The follow-up pair the heuristic produced on an invocation that
    reaches the decision analysis in state [st1]; none when the heuristic
    was not consulted. *)
Definition produced_pair (W : World) (input : string) (st1 : state)
  : option (string * dict) :=
  let req := decision_request W input (trace_of W) in
  let rep := answer W st1 req in
  match response_value rep with
  | Return r =>
      match _ok r with
      | Return true =>
          match fst (_suggest_next_action W r (record_call st1 req rep)) with
          | Return next_action => next_action
          | Raise _ => None
          end
      | _ => None
      end
  | Raise _ => None
  end.

(** The routed task by the two rules stated for it: empty without a
    follow-up pair; with one, the explicit task if there is one, the
    follow-up task otherwise. *)
Definition routed_by_the_pair (task : option string)
    (next_action : option (string * dict)) : string :=
  match next_action with
  | None => ""
  | Some (follow_up_task, _) =>
      match explicit task with
      | Some t => t
      | None => follow_up_task
      end
  end.

Definition stated_routed_task (W : World) (input : string)
    (task : option string) (parameters : option dict) (st : state) : Prop :=
  forall errors st1 env st',
    reaches_analysis W task parameters st errors st1 ->
    query W input task parameters st = (Return env, st') ->
    field "routedTask" env
    = Some (VStr (routed_by_the_pair task (produced_pair W input st1))).

Definition envelope_keys : list string :=
  ["traceId"; "input"; "routedTask"; "toolCalls"; "output"; "errors"].

Definition is_list (v : option value) : Prop := exists l, v = Some (VList l).

(** A value that is an envelope: the six keys, with lists under
    [toolCalls] and [errors]. *)
Definition well_formed (env : value) : Prop :=
  keys env = envelope_keys
  /\ is_list (field "toolCalls" env) /\ is_list (field "errors" env).

(** A world whose services answer the JSON text [[1]]. *)
Definition list_world : World :=
  {| getenv := fun _ => None;
     uuid4_hex := "0123456789abcdef0123456789abcdef";
     utcnow := fun _ => 1793736000%Z;
     urlopen := fun _ _ => Body "[1]" |}.

(** A world whose calls all end in an exception that [_post_json] does not
    catch. *)
Definition broken_world : World :=
  {| getenv := fun _ => None;
     uuid4_hex := "0123456789abcdef0123456789abcdef";
     utcnow := fun _ => 1793736000%Z;
     urlopen := fun _ _ =>
       Failure "'utf-8' codec can't decode byte 0xff in position 0" |}.

Fixpoint replicate (n : nat) (c : ascii) : string :=
  match n with
  | O => EmptyString
  | S k => String c (replicate k c)
  end.

(** A body of 6000 letters, which is not JSON. *)
Definition long_text : string := replicate 6000 "a".

(** What [_post_json] returns for that body. *)
Definition long_response : value :=
  VDict [("success", VBool true); ("text", VStr long_text)].

(** A world whose services answer with the long body. *)
Definition verbose_world : World :=
  {| getenv := fun _ => None;
     uuid4_hex := "0123456789abcdef0123456789abcdef";
     utcnow := fun _ => 1793736000%Z;
     urlopen := fun _ _ => Body long_text |}.

(** What [_post_json] returns for a body that is not JSON. *)
Definition text_wrapper (text : string) : value :=
  VDict [("success", VBool true); ("text", VStr text)].

(** What [_post_json] returns on an [HTTPError]. *)
Definition http_failure (code : Z) (reason : string) : value :=
  VDict [("success", VBool false); ("status", VInt code);
         ("error", VStr reason)].


(** A world with a shared secret in the environment. *)
Definition secret_world : World :=
  {| getenv := fun name =>
       if String.eqb name "SM_SHARED_SECRET" then Some "s3cret" else None;
     uuid4_hex := "0123456789abcdef0123456789abcdef";
     utcnow := fun _ => 1793736000%Z;
     urlopen := fun _ _ => Body "{}" |}.

(** The request is one that [_post_json] builds for the trace id of the
    invocation. *)
Definition posted_with_trace (W : World) (req : request) : Prop :=
  exists u body, req = post_request W u body (trace_of W).

(** The request of the calendar follow-up. *)
Definition calendar_follow_up (W : World) (req : request) : Prop :=
  url req = endpoint_url W "calendar"
  /\ exists params,
       payload req = VDict [("action", VStr "get_events");
                            ("parameters", VDict params)]
       /\ map fst params = ["timeMin"; "timeMax"; "maxResults"]
       /\ dict_get "maxResults" params = Some (VInt 50).

(** The request of the mail follow-up. *)
Definition gmail_follow_up (W : World) (req : request) : Prop :=
  url req = endpoint_url W "gmail"
  /\ payload req = VDict [("action", VStr "search_emails");
                          ("parameters",
                           VDict [("query", VStr "meeting");
                                  ("maxResults", VInt 20)])].

(** The text [json.dumps] puts before the escaped body of a
    [text_wrapper]. *)
Definition wrapper_head : string :=
  "{" ++ String dquote "success" ++ String dquote ": true, "
    ++ String dquote "text" ++ String dquote ": " ++ String dquote "".

(** The end of one member of an object, as [parse_members] reads it: the
    closing brace, or a comma and the next member. *)
Definition member_end (fuel : nat) (k : string) (v : value) (acc : dict)
    (s : string) : option (value * string) :=
  match skip_ws s with
  | String "}" rest => Some (VDict (dict_set k v acc), rest)
  | String "," rest => parse_members fuel (dict_set k v acc) (skip_ws rest)
  | _ => None
  end.

(** A text of decimal digits only. *)
Fixpoint all_digits (s : string) : bool :=
  match s with
  | EmptyString => true
  | String c r => is_digit c && all_digits r
  end.

(** A text of exactly [n] decimal digits. *)
Definition digits (n : nat) (s : string) : Prop :=
  String.length s = n /\ all_digits s = true.

(** A UTC timestamp in the form [YYYY-MM-DDTHH:MM:SSZ]. *)
Definition iso_timestamp (s : string) : Prop :=
  exists Y M D h m sec,
    s = Y ++ "-" ++ M ++ "-" ++ D ++ "T" ++ h ++ ":" ++ m ++ ":" ++ sec ++ "Z"
    /\ digits 4 Y /\ digits 2 M /\ digits 2 D
    /\ digits 2 h /\ digits 2 m /\ digits 2 sec.

(** The first and the last second a [datetime] can hold, counted from
    1970-01-01: 0001-01-01T00:00:00 and 9999-12-31T23:59:59. *)
Definition first_second : Z := (-62135596800)%Z.
Definition last_second : Z := 253402300799%Z.

(** The number [k], padded to [width], is [width] digits. *)
Definition padded_ok (width k : nat) : bool :=
  (String.length (zfill width (str_of_int (Z.of_nat k))) =? width)%nat
  && all_digits (zfill width (str_of_int (Z.of_nat k))).

(** ** The deployment script *)

(** [s.split(sep)[-1]] for a separator of one character: the text after
    the last separator, the whole text when there is none. *)
Fixpoint last_segment (sep : ascii) (s : string) : string :=
  match s with
  | EmptyString => EmptyString
  | String c r =>
      if contains sep r then last_segment sep r
      else if Ascii.eqb c sep then r
      else s
  end.

(** What [deploy_custom] returns for the resource name of the engine it
    created: the engine id and the URL of its console page. *)
Definition deploy_info (W : World) (resource_name : string)
  : list (string * string) :=
  let engine_id := last_segment "/" resource_name in
  [("engine_id", engine_id);
   ("console_url",
    "https://console.cloud.google.com/vertex-ai/reasoning-engines/"
      ++ engine_id ++ "?project=" ++ PROJECT_ID W)].

(** A world whose first call is answered with a plain text and whose later
    calls end in HTTP status 500. *)
Definition mixed_world : World :=
  {| getenv := fun _ => None;
     uuid4_hex := "0123456789abcdef0123456789abcdef";
     utcnow := fun _ => 1793736000%Z;
     urlopen := fun n _ =>
       match n with
       | O => Body "hello"
       | S _ => HTTPError 500 "Internal Server Error"
       end |}.

(** * Properties *)

(** ** Strings *)

Lemma append_assoc (a b c : string) : (a ++ b) ++ c = a ++ (b ++ c).
Proof. induction a as [|x a IH]; simpl; [reflexivity | now rewrite IH]. Qed.

Lemma startswith_split (s p : string) :
  startswith s p = true -> exists r, s = p ++ r.
Proof.
  revert s; induction p as [|c p IH]; intros s H.
  - exists s; reflexivity.
  - destruct s as [|d s]; simpl in H; [discriminate|].
    apply andb_true_iff in H as [Hc Hp].
    apply Ascii.eqb_eq in Hc; subst d.
    destruct (IH _ Hp) as [r ->]. exists r; reflexivity.
Qed.

Lemma startswith_append (p r : string) : startswith (p ++ r) p = true.
Proof.
  induction p as [|c p IH]; simpl; [reflexivity|].
  now rewrite Ascii.eqb_refl.
Qed.

(** ** The monad *)

Lemma post_json_run (W : World) (u : string) (body : value)
    (trace_id : string) (st : state) :
  _post_json W u body trace_id st =
  (response_value (urlopen W (List.length (calls st))
                     (post_request W u body trace_id)),
   record_call st (post_request W u body trace_id)
     (urlopen W (List.length (calls st)) (post_request W u body trace_id))).
Proof. reflexivity. Qed.

(** ** Dispatch *)

Lemma execute_unknown (W : World) (task : string) (params : dict)
    (trace_id : string) (st : state) :
  ~ recognised task ->
  _execute_task W task params trace_id st
  = (Raise (ValueError ("Unknown task: " ++ task)), st).
Proof.
  intros Hn. unfold _execute_task.
  assert (Hpre : forall ns, In ns namespaces ->
                            startswith task (ns ++ ".") = false).
  { intros ns Hin. destruct (startswith task (ns ++ ".")) eqn:E; [|reflexivity].
    exfalso; apply Hn; left.
    destruct (startswith_split _ _ E) as [r ->].
    exists ns, r; split; [assumption|].
    now rewrite append_assoc. }
  assert (Hlit : forall t, In t shortcuts -> String.eqb task t = false).
  { intros t Hin. destruct (String.eqb task t) eqn:E; [|reflexivity].
    apply String.eqb_eq in E; subst. exfalso; apply Hn; right; assumption. }
  assert (H1 : startswith task "calendar." = false)
    by (apply (Hpre "calendar"); simpl; tauto).
  assert (H2 : startswith task "gmail." = false)
    by (apply (Hpre "gmail"); simpl; tauto).
  assert (H3 : startswith task "drive." = false)
    by (apply (Hpre "drive"); simpl; tauto).
  assert (H4 : startswith task "decision." = false)
    by (apply (Hpre "decision"); simpl; tauto).
  assert (H5 : startswith task "data_pipeline." = false)
    by (apply (Hpre "data_pipeline"); simpl; tauto).
  rewrite H1, H2, H3, H4, H5.
  rewrite (Hlit "backend.minutes"), (Hlit "backend.mindmap") by (simpl; tauto).
  reflexivity.
Qed.

(** C3.  A task string that matches none of the seven recognised forms
    makes dispatch fail with an error that carries the task string, and the
    state is the one dispatch started from: no outbound call was made. *)
Theorem unknown_task_fails_before_any_call
    (W : World) (task : string) (params : dict) (trace_id : string)
    (st : state) :
  ~ recognised task ->
  exists message,
    _execute_task W task params trace_id st = (Raise (ValueError message), st)
    /\ message = "Unknown task: " ++ task
    /\ calls (snd (_execute_task W task params trace_id st)) = calls st.
Proof.
  intros Hn. exists ("Unknown task: " ++ task).
  rewrite (execute_unknown W task params trace_id st Hn).
  repeat split.
Qed.

Lemma unknown_foo_not_recognised : ~ recognised "unknown.foo".
Proof.
  intros [(ns & a & Hin & Heq) | Hin].
  - simpl in Hin.
    repeat (destruct Hin as [<- | Hin]; [simpl in Heq; discriminate|]).
    contradiction.
  - simpl in Hin.
    repeat (destruct Hin as [Hin | Hin]; [discriminate|]).
    contradiction.
Qed.

Lemma unknown_task_fails_before_any_call_witness :
  exists message,
    _execute_task quiet_world "unknown.foo" [] "t" initial
    = (Raise (ValueError message), initial)
    /\ message = "Unknown task: unknown.foo"
    /\ calls (snd (_execute_task quiet_world "unknown.foo" [] "t" initial))
       = calls initial.
Proof.
  exact (unknown_task_fails_before_any_call quiet_world "unknown.foo" [] "t"
           initial unknown_foo_not_recognised).
Defined.

(** C4.  For a task made of one of the five name spaces, a dot and an
    action, dispatch makes exactly one call: a POST to the endpoint
    configured for that name space, with the body
    [{"action": action, "parameters": params}].  For the two back-end
    shortcuts the parameters themselves are the body, sent to the fixed path
    under the back-end base. *)
Theorem dispatch_posts_once_to_the_endpoint
    (W : World) (params : dict) (trace_id : string) (st : state) :
  (forall ns action, In ns namespaces ->
     exists u,
       assoc ns (CF_ENDPOINTS W) = Some u
       /\ let req := post_request W u
                       (VDict [("action", VStr action);
                               ("parameters", VDict params)]) trace_id in
          let rep := urlopen W (List.length (calls st)) req in
          _execute_task W (ns ++ "." ++ action) params trace_id st
          = (response_value rep, record_call st req rep))
  /\ (let req := post_request W (BACKEND_BASE W ++ "/api/agent/minutes/generate")
                   (VDict params) trace_id in
      let rep := urlopen W (List.length (calls st)) req in
      _execute_task W "backend.minutes" params trace_id st
      = (response_value rep, record_call st req rep))
  /\ (let req := post_request W (BACKEND_BASE W ++ "/api/speech/generate-mindmap")
                   (VDict params) trace_id in
      let rep := urlopen W (List.length (calls st)) req in
      _execute_task W "backend.mindmap" params trace_id st
      = (response_value rep, record_call st req rep)).
Proof.
  split; [|split; reflexivity].
  intros ns action Hin. simpl in Hin.
  repeat (destruct Hin as [<- | Hin];
          [eexists; split; [reflexivity | reflexivity] |]).
  contradiction.
Qed.

(** The example of the specification: [dispatch("calendar.get_events",
    {a: 1})]. *)
Lemma dispatch_posts_once_to_the_endpoint_witness :
  In "calendar" namespaces
  /\ exists u,
       assoc "calendar" (CF_ENDPOINTS quiet_world) = Some u
       /\ let req := post_request quiet_world u
                       (VDict [("action", VStr "get_events");
                               ("parameters", VDict [("a", VInt 1)])]) "t" in
          let rep := urlopen quiet_world (List.length (calls initial)) req in
          _execute_task quiet_world ("calendar" ++ "." ++ "get_events")
            [("a", VInt 1)] "t" initial
          = (response_value rep, record_call initial req rep).
Proof.
  assert (Hin : In "calendar" namespaces) by (simpl; auto).
  split; [exact Hin|].
  exact (proj1 (dispatch_posts_once_to_the_endpoint quiet_world
                  [("a", VInt 1)] "t" initial) "calendar" "get_events" Hin).
Defined.

(** ** The failure predicate *)

Lemma ok_false_iff (r : value) :
  _ok r = Return false <-> failure_indicator r.
Proof.
  unfold _ok, failure_indicator. destruct (truthy r) eqn:Ht.
  - split.
    + intros H. right. destruct r; simpl in H; try discriminate.
      exists kv; split; [reflexivity|].
      unfold dict_get_default in H.
      destruct (dict_get "success" kv) as [[| [|] | | | |]|];
        simpl in H; try discriminate; reflexivity.
    + intros [H | (kv & -> & Hs)]; [discriminate|].
      simpl. unfold dict_get_default. rewrite Hs. reflexivity.
  - split; [intros _; left; reflexivity | reflexivity].
Qed.

Lemma ok_true_dict (r : value) :
  _ok r = Return true -> exists kv, r = VDict kv /\ kv <> [].
Proof.
  unfold _ok. destruct (truthy r) eqn:Ht; [|discriminate].
  destruct r; simpl; try discriminate.
  intros _. exists kv; split; [reflexivity|].
  intros ->; discriminate.
Qed.

(** ** The heuristic, case by case *)

Lemma suggest_urgent (W : World) (d u : value) (st : state) :
  read_urgency d = Return u -> is_urgent u = true ->
  _suggest_next_action W d st
  = (Return (Some ("calendar.get_events", calendar_params W st)),
     after_clock st).
Proof.
  intros Hu Hi. unfold _suggest_next_action, try_except, bind, lift.
  rewrite Hu, Hi. reflexivity.
Qed.

Lemma suggest_other (W : World) (d u : value) (st : state) :
  read_urgency d = Return u -> is_urgent u = false ->
  _suggest_next_action W d st
  = (Return (Some ("gmail.search_emails", gmail_params)), st).
Proof.
  intros Hu Hi. unfold _suggest_next_action, try_except, bind, lift.
  rewrite Hu, Hi. reflexivity.
Qed.

Lemma suggest_error (W : World) (d : value) (e : exn) (st : state) :
  read_urgency d = Raise e ->
  _suggest_next_action W d st = (Return None, st).
Proof.
  intros Hu. unfold _suggest_next_action, try_except, bind, lift.
  rewrite Hu. reflexivity.
Qed.

Lemma suggest_run (W : World) (d : value) (st : state) :
  _suggest_next_action W d st
  = (Return (fst (suggestion W d st)), snd (suggestion W d st)).
Proof.
  unfold suggestion. destruct (read_urgency d) as [u|e] eqn:Hu.
  - destruct (is_urgent u) eqn:Hi.
    + now rewrite (suggest_urgent W d u st Hu Hi).
    + now rewrite (suggest_other W d u st Hu Hi).
  - now rewrite (suggest_error W d e st Hu).
Qed.

Lemma suggestion_calls (W : World) (d : value) (st : state) :
  calls (snd (suggestion W d st)) = calls st.
Proof.
  unfold suggestion. destruct (read_urgency d) as [u|e]; [|reflexivity].
  destruct (is_urgent u); reflexivity.
Qed.

(** ** The runs of the automatic path *)

Lemma suggestion_tasks (W : World) (d : value) (st : state)
    (task : string) (params : dict) :
  fst (suggestion W d st) = Some (task, params) ->
  task = "calendar.get_events" \/ task = "gmail.search_emails".
Proof.
  unfold suggestion. destruct (read_urgency d) as [u|e]; [|discriminate].
  destruct (is_urgent u); simpl; intros H; injection H as <- _; auto.
Qed.

Lemma suggestion_none (W : World) (d : value) (st : state) :
  fst (suggestion W d st) = None -> snd (suggestion W d st) = st.
Proof.
  unfold suggestion. destruct (read_urgency d) as [u|e]; [|reflexivity].
  destruct (is_urgent u); discriminate.
Qed.

Lemma follow_up_execute (W : World) (task : string) (params : dict)
    (trace_id : string) (st : state) :
  task = "calendar.get_events" \/ task = "gmail.search_emails" ->
  _execute_task W task params trace_id st
  = (response_value (answer W st (follow_up_request W task params trace_id)),
     record_call st (follow_up_request W task params trace_id)
       (answer W st (follow_up_request W task params trace_id))).
Proof. intros [-> | ->]; reflexivity. Qed.

(** The automatic path, step by step. *)
Lemma automatic_unfold (W : World) (input trace_id routed_task : string)
    (errors : list value) (st : state) :
  let req := decision_request W input trace_id in
  let rep := answer W st req in
  let st1 := record_call st req rep in
  automatic W input trace_id routed_task errors st =
  match response_value rep with
  | Raise e => (Raise e, st1)
  | Return r =>
      match _ok r with
      | Raise e => (Raise e, st1)
      | Return false =>
          (Return (envelope trace_id input routed_task
                     [decision_record input r] failure_note
                     (errors ++ [error_record "decision.analyze_situation"
                                   (str r)])%list), st1)
      | Return true =>
          match follow_up W (fst (suggestion W r st1)) trace_id
                  [decision_record input r] errors
                  (snd (suggestion W r st1)) with
          | (Return (tcs, errs), st3) =>
              (Return (envelope trace_id input
                         (final_routed_task routed_task
                            (fst (suggestion W r st1))) tcs r errs), st3)
          | (Raise e, st3) => (Raise e, st3)
          end
      end
  end.
Proof.
  intros req rep st1.
  unfold automatic, bind, lift. cbn [endpoint assoc CF_ENDPOINTS String.eqb].
  change (endpoint W "decision") with (Return (endpoint_url W "decision")).
  cbn iota. rewrite post_json_run.
  change (post_request W (endpoint_url W "decision") (decision_payload input)
            trace_id) with req.
  change (urlopen W (Datatypes.length (calls st)) req) with rep.
  change (record_call st req rep) with st1.
  destruct (response_value rep) as [r|e]; [|reflexivity].
  destruct (_ok r) as [[|]|e]; cbn [negb]; try reflexivity.
  rewrite suggest_run. cbn [fst snd]. unfold decision_record.
  destruct (follow_up W (fst (suggestion W r st1)) trace_id
              [tool_call "decision.analyze_situation"
                 [("context", VStr (_safe_str input))] r] errors
              (snd (suggestion W r st1))) as [[[tcs errs]|e] st3];
    reflexivity.
Qed.

(** The follow-up step, once the task is one of the heuristic's. *)
Lemma follow_up_unfold (W : World) (task : string) (params : dict)
    (trace_id : string) (tool_calls errors : list value) (st : state) :
  task = "calendar.get_events" \/ task = "gmail.search_emails" ->
  let req2 := follow_up_request W task params trace_id in
  let rep2 := answer W st req2 in
  follow_up W (Some (task, params)) trace_id tool_calls errors st =
  match response_value rep2 with
  | Return r2 =>
      (Return ((tool_calls ++ [tool_call task params r2])%list, errors),
       record_call st req2 rep2)
  | Raise e =>
      (Return (tool_calls, (errors ++ [error_record task (str_exn e)])%list),
       record_call st req2 rep2)
  end.
Proof.
  intros Ht req2 rep2. unfold follow_up, try_except, bind.
  rewrite (follow_up_execute W task params trace_id st Ht).
  fold req2. fold rep2. destruct (response_value rep2); reflexivity.
Qed.

Lemma automatic_runs (W : World) (input trace_id routed_task : string)
    (errors : list value) (st : state) :
  automatic_run W input trace_id routed_task errors st
    (automatic W input trace_id routed_task errors st).
Proof.
  rewrite automatic_unfold.
  set (req := decision_request W input trace_id).
  set (rep := answer W st req).
  set (st1 := record_call st req rep).
  destruct (response_value rep) as [r|e] eqn:Hr;
    [|exact (run_call_raises W input trace_id routed_task errors st e Hr)].
  destruct (_ok r) as [[|]|e] eqn:Hok.
  - destruct (fst (suggestion W r st1)) as [[task params]|] eqn:Hs.
    + rewrite (follow_up_unfold W task params trace_id _ _ _
                 (suggestion_tasks W r st1 task params Hs)).
      destruct (response_value
                  (answer W (snd (suggestion W r st1))
                     (follow_up_request W task params trace_id)))
        as [r2|e2] eqn:Hr2.
      * exact (run_follow_up W input trace_id routed_task errors st r task
                 params r2 Hr Hok Hs Hr2).
      * exact (run_follow_up_raises W input trace_id routed_task errors st r
                 task params e2 Hr Hok Hs Hr2).
    + cbn [follow_up ret final_routed_task].
      rewrite (suggestion_none W r st1 Hs).
      exact (run_no_follow_up W input trace_id routed_task errors st r Hr Hok
               Hs).
  - exact (run_decision_failed W input trace_id routed_task errors st r Hr Hok).
  - exact (run_ok_raises W input trace_id routed_task errors st r e Hr Hok).
Qed.

(** What the automatic path calls, records as tool calls and gives as
    output does not depend on the routed task and on the errors it starts
    with. *)
Lemma automatic_independent (W : World) (input trace_id routed_task : string)
    (errors : list value) (st : state) :
  snd (automatic W input trace_id routed_task errors st)
  = snd (automatic W input trace_id "" [] st)
  /\ match fst (automatic W input trace_id routed_task errors st),
           fst (automatic W input trace_id "" [] st) with
     | Return env, Return env0 =>
         field "toolCalls" env = field "toolCalls" env0
         /\ field "output" env = field "output" env0
     | Raise e, Raise e0 => e = e0
     | _, _ => False
     end.
Proof.
  rewrite !automatic_unfold.
  set (req := decision_request W input trace_id).
  set (rep := answer W st req).
  set (st1 := record_call st req rep).
  destruct (response_value rep) as [r|e]; [|split; reflexivity].
  destruct (_ok r) as [[|]|e].
  - destruct (fst (suggestion W r st1)) as [[task params]|] eqn:Hs.
    + rewrite !(follow_up_unfold W task params trace_id _ _ _
                  (suggestion_tasks W r st1 task params Hs)).
      destruct (response_value
                  (answer W (snd (suggestion W r st1))
                     (follow_up_request W task params trace_id)));
        (split; [reflexivity | split; reflexivity]).
    + cbn [follow_up ret]. split; [reflexivity | split; reflexivity].
  - split; [reflexivity | split; reflexivity].
  - split; reflexivity.
Qed.

(** ** The runs of [query] *)

Lemma explicit_some (task : option string) (t : string) :
  explicit task = Some t -> task = Some t /\ String.eqb t "" = false.
Proof.
  destruct task as [t'|]; simpl; [|discriminate].
  destruct (String.eqb t' "") eqn:E; [discriminate|].
  intros H; injection H as <-. split; [reflexivity | assumption].
Qed.

Lemma query_direct (W : World) (input : string) (task : option string)
    (parameters : option dict) (st st1 : state) (t : string) (result : value) :
  explicit task = Some t ->
  _execute_task W t (params_of parameters) (trace_of W) st
  = (Return result, st1) ->
  query W input task parameters st
  = (Return (envelope (trace_of W) input t
               [tool_call t (params_of parameters) result] result []), st1).
Proof.
  intros Ht Hx. destruct (explicit_some _ _ Ht) as [-> Hne].
  unfold query, try_except, bind. rewrite Hne. cbn [negb].
  fold (trace_of W). fold (params_of parameters). rewrite Hx. reflexivity.
Qed.

Lemma query_automatic (W : World) (input : string) (task : option string)
    (parameters : option dict) (st st1 : state) (errors : list value) :
  reaches_analysis W task parameters st errors st1 ->
  query W input task parameters st
  = automatic W input (trace_of W) (routed_of task) errors st1.
Proof.
  intros [Hnone | t e st2 Ht Hx].
  - unfold query. fold (trace_of W).
    destruct task as [t|]; [|reflexivity].
    simpl in Hnone. destruct (String.eqb t ""); [reflexivity | discriminate].
  - destruct (explicit_some _ _ Ht) as [-> Hne].
    unfold query, try_except, bind. rewrite Hne. cbn [negb].
    fold (trace_of W). fold (params_of parameters). rewrite Hx. reflexivity.
Qed.

Lemma query_runs (W : World) (input : string) (task : option string)
    (parameters : option dict) (st : state) :
  query_run W input task parameters st (query W input task parameters st).
Proof.
  destruct (explicit task) as [t|] eqn:Ht.
  - destruct (_execute_task W t (params_of parameters) (trace_of W) st)
      as [[result|e] st1] eqn:Hx.
    + rewrite (query_direct W input task parameters st st1 t result Ht Hx).
      now apply run_direct.
    + assert (Hr : reaches_analysis W task parameters st
                     [error_record t (str_exn e)] st1)
        by (now apply reaches_after_failure).
      rewrite (query_automatic W input task parameters st st1 _ Hr).
      eapply run_automatic; [exact Hr | apply automatic_runs].
  - assert (Hr : reaches_analysis W task parameters st [] st)
      by (now apply reaches_without_task).
    rewrite (query_automatic W input task parameters st st _ Hr).
    eapply run_automatic; [exact Hr | apply automatic_runs].
Qed.

(** Dispatch either stops at an unrecognised task, or makes one call and
    passes on what [_post_json] gives. *)
Lemma execute_cases (W : World) (task : string) (params : dict)
    (trace_id : string) (st : state) :
  (~ recognised task
   /\ _execute_task W task params trace_id st
      = (Raise (ValueError ("Unknown task: " ++ task)), st))
  \/ (recognised task
      /\ exists req,
           _execute_task W task params trace_id st
           = (response_value (answer W st req),
              record_call st req (answer W st req))).
Proof.
  assert (Hns : forall ns, In ns namespaces ->
            startswith task (ns ++ ".") = true ->
            exists a, task = ns ++ "." ++ a /\ recognised task).
  { intros ns Hin E. destruct (startswith_split _ _ E) as [a Ha].
    rewrite append_assoc in Ha. exists a; split; [exact Ha|].
    left; exists ns, a; split; assumption. }
  destruct (startswith task "calendar.") eqn:E1.
  { destruct (Hns "calendar") as (a & -> & Hrec); [simpl; tauto | exact E1 |].
    right; split; [exact Hrec|].
    exists (tool_request W "calendar" a params trace_id); reflexivity. }
  destruct (startswith task "gmail.") eqn:E2.
  { destruct (Hns "gmail") as (a & -> & Hrec); [simpl; tauto | exact E2 |].
    right; split; [exact Hrec|].
    exists (tool_request W "gmail" a params trace_id); reflexivity. }
  destruct (startswith task "drive.") eqn:E3.
  { destruct (Hns "drive") as (a & -> & Hrec); [simpl; tauto | exact E3 |].
    right; split; [exact Hrec|].
    exists (tool_request W "drive" a params trace_id); reflexivity. }
  destruct (startswith task "decision.") eqn:E4.
  { destruct (Hns "decision") as (a & -> & Hrec); [simpl; tauto | exact E4 |].
    right; split; [exact Hrec|].
    exists (tool_request W "decision" a params trace_id); reflexivity. }
  destruct (startswith task "data_pipeline.") eqn:E5.
  { destruct (Hns "data_pipeline") as (a & -> & Hrec);
      [simpl; tauto | exact E5 |].
    right; split; [exact Hrec|].
    exists (tool_request W "data_pipeline" a params trace_id); reflexivity. }
  destruct (String.eqb task "backend.minutes") eqn:E6.
  { apply String.eqb_eq in E6; subst task.
    right; split; [right; simpl; tauto|].
    exists (post_request W (BACKEND_BASE W ++ "/api/agent/minutes/generate")
              (VDict params) trace_id); reflexivity. }
  destruct (String.eqb task "backend.mindmap") eqn:E7.
  { apply String.eqb_eq in E7; subst task.
    right; split; [right; simpl; tauto|].
    exists (post_request W (BACKEND_BASE W ++ "/api/speech/generate-mindmap")
              (VDict params) trace_id); reflexivity. }
  left. assert (Hn : ~ recognised task).
  { intros [(ns & a & Hin & ->) | Hin]; simpl in Hin.
    - repeat (destruct Hin as [<- | Hin];
              [simpl in *; discriminate|]).
      contradiction.
    - repeat (destruct Hin as [<- | Hin]; [simpl in *; discriminate|]).
      contradiction. }
  split; [exact Hn | exact (execute_unknown W task params trace_id st Hn)].
Qed.

(** ** Calls attempted and calls recorded *)

(** Rewrites with what is known of the answers of the run. *)
Ltac use_answers :=
  unfold answered; cbn [snd];
  repeat match goal with
         | H : response_value _ = _ |- _ => progress rewrite H
         end.

Lemma automatic_accounting (W : World) (input trace_id routed_task : string)
    (errors : list value) (st st' : state) (env : value) :
  automatic_run W input trace_id routed_task errors st (Return env, st') ->
  exists new more,
    calls st' = (calls st ++ new)%list
    /\ entries "errors" env = (errors ++ more)%list
    /\ List.length (entries "toolCalls" env) = List.length (filter answered new)
    /\ 1 <= List.length (entries "toolCalls" env) <= 2
    /\ List.length new <= 2
    /\ (more <> [] ->
        (exists c, In c new /\ answered c = false)
        \/ (exists rep r,
              In (decision_request W input trace_id, rep) new
              /\ response_value rep = Return r /\ failure_indicator r)).
Proof.
  intros H. inversion H; subst; clear H.
  - (* the decision analysis failed *)
    exists [(req, rep)], [error_record "decision.analyze_situation" (str r)].
    repeat split; try (simpl; lia).
    + cbn. now use_answers.
    + intros _. right. exists rep, r.
      repeat split; [left; reflexivity | assumption |].
      now apply ok_false_iff.
  - (* no follow-up *)
    exists [(req, rep)], []. repeat split; try (simpl; lia).
    + cbn. now rewrite app_nil_r.
    + cbn. now use_answers.
    + intros Hm; now contradiction Hm.
  - (* a follow-up that returned *)
    exists [(req, rep); (req2, rep2)], [].
    repeat split; try (simpl; lia).
    + subst st2 st1. cbn [record_call calls]. rewrite suggestion_calls.
      cbn [record_call calls]. now rewrite <- app_assoc.
    + cbn. now rewrite app_nil_r.
    + cbn. now use_answers.
    + intros Hm; now contradiction Hm.
  - (* a follow-up that raised *)
    exists [(req, rep); (req2, rep2)], [error_record task (str_exn e)].
    repeat split; try (simpl; lia).
    + subst st2 st1. cbn [record_call calls]. rewrite suggestion_calls.
      cbn [record_call calls]. now rewrite <- app_assoc.
    + cbn. now use_answers.
    + intros _. left. exists (req2, rep2). split; [right; left; reflexivity|].
      now use_answers.
Qed.

(** C2, as stated, fails: the explicit call to the calendar tool raises, the
    decision analysis is called next, and the envelope lists one tool call
    for two calls attempted. *)
Lemma a_raising_call_is_not_recorded :
  ~ stated_call_accounting flaky_world "x" (Some "calendar.get_events") None
      initial.
Proof.
  intros H.
  destruct (H (returned (query flaky_world "x" (Some "calendar.get_events")
                           None initial))
              (snd (query flaky_world "x" (Some "calendar.get_events")
                      None initial)) eq_refl) as [Hlen _].
  vm_compute in Hlen. discriminate.
Qed.

(** C2, amended.  Whenever [query] returns an envelope, [toolCalls] has one
    entry for each outbound call that came back with a value: its length is
    the number of calls attempted less those that ended in an exception.
    It is 1 or 2, and at most 3 calls are attempted.  [errors] has an entry
    only if the explicit task was not recognised, or an attempted call ended
    in an exception, or the decision call gave a failure indicator. *)
Theorem tool_calls_count_the_answered_calls
    (W : World) (input : string) (task : option string)
    (parameters : option dict) (st st' : state) (env : value) :
  query W input task parameters st = (Return env, st') ->
  exists new,
    calls st' = (calls st ++ new)%list
    /\ List.length (entries "toolCalls" env)
       = List.length (filter answered new)
    /\ 1 <= List.length (entries "toolCalls" env) <= 2
    /\ List.length new <= 3
    /\ (entries "errors" env <> [] ->
        (exists t, explicit task = Some t /\ ~ recognised t)
        \/ (exists c, In c new /\ answered c = false)
        \/ (exists rep r,
              In (decision_request W input (trace_of W), rep) new
              /\ response_value rep = Return r /\ failure_indicator r)).
Proof.
  intros Hq. pose proof (query_runs W input task parameters st) as Hrun.
  rewrite Hq in Hrun.
  inversion Hrun as [t result st1 Ht Hx | errors st1 o Hreach Hauto]; subst.
  - (* the explicit task was dispatched *)
    destruct (execute_cases W t (params_of parameters) (trace_of W) st)
      as [[_ Hraise] | [_ [req Hcall]]];
      [rewrite Hraise in Hx; discriminate|].
    rewrite Hcall in Hx. injection Hx as Hv Hst. subst st'.
    exists [(req, answer W st req)]. repeat split; try (simpl; lia).
    + cbn. unfold answered. cbn [snd]. now rewrite Hv.
    + cbn. intros Hne; now contradiction Hne.
  - destruct (automatic_accounting W input (trace_of W) (routed_of task)
                errors st1 st' env Hauto)
      as (new & more & Hcalls & Herr & Hlen & Hbound & Hnew & Hmore).
    destruct Hreach as [Hnone | t e st1 Ht Hx].
    + (* no explicit task *)
      exists new. repeat split; try assumption; try lia.
      intros Hne. right. apply Hmore. now rewrite Herr in Hne.
    + (* the explicit task raised *)
      destruct (execute_cases W t (params_of parameters) (trace_of W) st)
        as [[Hn Hraise] | [_ [req Hcall]]].
      * rewrite Hraise in Hx. injection Hx as _ <-.
        exists new. repeat split; try assumption; try lia.
        intros _. left. now exists t.
      * rewrite Hcall in Hx. injection Hx as Hv <-.
        assert (Hans : answered (req, answer W st req) = false)
          by (unfold answered; cbn [snd]; now rewrite Hv).
        exists ((req, answer W st req) :: new). repeat split.
        -- rewrite Hcalls. cbn [record_call calls].
           now rewrite <- app_assoc.
        -- cbn [filter]. now rewrite Hans.
        -- lia.
        -- lia.
        -- simpl; lia.
        -- intros _. right; left. exists (req, answer W st req).
           split; [left; reflexivity | exact Hans].
Qed.

Lemma tool_calls_count_the_answered_calls_witness :
  exists new,
    calls (snd (query quiet_world "x" None None initial))
    = (calls initial ++ new)%list
    /\ List.length (entries "toolCalls"
                      (returned (query quiet_world "x" None None initial)))
       = List.length (filter answered new)
    /\ 1 <= List.length (entries "toolCalls"
                           (returned (query quiet_world "x" None None initial)))
       <= 2
    /\ List.length new <= 3
    /\ (entries "errors" (returned (query quiet_world "x" None None initial))
        <> [] ->
        (exists t, explicit None = Some t /\ ~ recognised t)
        \/ (exists c, In c new /\ answered c = false)
        \/ (exists rep r,
              In (decision_request quiet_world "x" (trace_of quiet_world), rep)
                new
              /\ response_value rep = Return r /\ failure_indicator r)).
Proof.
  apply (tool_calls_count_the_answered_calls quiet_world "x" None None initial).
  reflexivity.
Defined.

(** ** The decision analysis that fails *)

(** Replaces the local definitions of a run by their bodies. *)
Ltac inline_locals :=
  repeat match goal with
         | x := _ |- _ => subst x
         end.

(** Two lists of different lengths are different. *)
Ltac by_length H :=
  apply (f_equal (@List.length _)) in H;
  repeat (rewrite ?length_app, ?suggestion_calls in H;
          cbn [List.length record_call calls] in H);
  lia.

(** C5.  The decision call counts as failed exactly when its value is
    falsy, or is a mapping whose [success] key is present and holds the
    boolean false; a mapping that is not empty and has no [success] key
    counts as a success.  And on an invocation that reaches the decision analysis
    and gets the value [r] from it, the call counts as failed exactly when
    [query] appends the error record of [decision.analyze_situation] and
    returns at once, with the note as output and the decision call as the
    last call made. *)
Theorem failed_decision_ends_the_query :
  (forall r, _ok r = Return false <-> failure_indicator r)
  /\ (forall kv, kv <> [] -> dict_get "success" kv = None ->
        _ok (VDict kv) = Return true)
  /\ forall (W : World) (input : string) (task : option string)
       (parameters : option dict) (st st1 : state) (errors : list value)
       (r : value),
       reaches_analysis W task parameters st errors st1 ->
       let req := decision_request W input (trace_of W) in
       let rep := answer W st1 req in
       response_value rep = Return r ->
       (_ok r = Return false
        <-> query W input task parameters st
            = (Return (failure_envelope W input task errors r),
               record_call st1 req rep)).
Proof.
  split; [exact ok_false_iff|]. split.
  { intros kv Hne Hs. unfold _ok. destruct kv as [|p kv]; [now contradiction Hne|].
    cbn [truthy get_method]. unfold dict_get_default. now rewrite Hs. }
  intros W input task parameters st st1 errors r Hreach req rep Hr.
  rewrite (query_automatic W input task parameters st st1 errors Hreach).
  pose proof (automatic_runs W input (trace_of W) (routed_of task) errors st1)
    as Hrun.
  split.
  - intros Hok.
    inversion Hrun as
      [ e req' rep' Hr' Heq
      | r' e req' rep' Hr' Hok' Heq
      | r' req' rep' Hr' Hok' Heq
      | r' req' rep' st1' Hr' Hok' Hs Heq
      | r' t p r2 req' rep' st1' st2 req2 rep2 Hr' Hok' Hs Hr2 Heq
      | r' t p e req' rep' st1' st2 req2 rep2 Hr' Hok' Hs Hr2 Heq ];
      subst req' rep'; fold req in Hr'; fold rep in Hr';
      rewrite Hr in Hr'; try discriminate;
      injection Hr' as <-; rewrite Hok in Hok'; try discriminate.
    reflexivity.
  - intros Heq0. rewrite Heq0 in Hrun. clear Heq0.
    inversion Hrun; subst; inline_locals.
    + match goal with
      | H1 : response_value _ = Return ?r0, H2 : _ok ?r0 = Return false |- _ =>
          rewrite Hr in H1; injection H1 as <-; exact H2
      end.
    + exfalso.
      match goal with
      | H : ?l = (?l ++ _)%list |- _ => by_length H
      end.
    + exfalso.
      match goal with
      | H : (calls _ ++ _)%list = (calls _ ++ _)%list |- _ => by_length H
      end.
Qed.

Lemma failed_decision_ends_the_query_witness :
  _ok (VDict []) = Return false
  <-> query quiet_world "x" None None initial
      = (Return (failure_envelope quiet_world "x" None [] (VDict [])),
         record_call initial
           (decision_request quiet_world "x" (trace_of quiet_world))
           (answer quiet_world initial
              (decision_request quiet_world "x" (trace_of quiet_world)))).
Proof.
  exact (proj2 (proj2 failed_decision_ends_the_query) quiet_world "x" None None
           initial initial [] (VDict [])
           (reaches_without_task quiet_world None None initial eq_refl)
           eq_refl).
Defined.

(** ** The next-action heuristic *)

Lemma is_urgent_iff (u : value) :
  is_urgent u = true <-> exists s, u = VStr s /\ urgent_text s.
Proof.
  unfold urgent_text, ci_equal. split.
  - destruct u; simpl; try discriminate.
    intros H. exists s; split; [reflexivity|].
    apply orb_true_iff in H as [H|H]; apply String.eqb_eq in H; auto.
  - intros (s & -> & [H|H]); simpl in *; rewrite H; reflexivity.
Qed.

(** C6, as stated, fails: the decision result [{"result": [1]}] is not an
    urgent one, and the heuristic gives no pair for it. *)
Lemma no_pair_for_a_result_that_is_no_mapping :
  ~ stated_heuristic quiet_world (VDict [("result", VList [VInt 1])]) initial.
Proof.
  intros [_ H].
  assert (Hn : ~ urgent (VDict [("result", VList [VInt 1])])).
  { intros (s & Hs & _). vm_compute in Hs. discriminate. }
  specialize (H Hn). vm_compute in H. discriminate.
Qed.

Lemma read_urgency_raises (d : value) :
  (exists e, read_urgency d = Raise e)
  <-> (forall kv, d <> VDict kv)
      \/ (exists kv v, d = VDict kv /\ dict_get "result" kv = Some v
                       /\ truthy v = true /\ forall kv', v <> VDict kv').
Proof.
  split.
  - intros [e He]. destruct d; try (left; intros kv' Hk; discriminate).
    right. exists kv. unfold read_urgency, select_result in He.
    cbn [get_method] in He. unfold dict_get_default in He.
    destruct (dict_get "result" kv) as [v|] eqn:Hg.
    + unfold py_or in He at 2. destruct (truthy v) eqn:Hv.
      * exists v. split; [reflexivity|]. split; [reflexivity|].
        split; [exact Hv|]. intros kv' ->. unfold py_or in He. rewrite Hv in He. discriminate.
      * unfold py_or in He.
        destruct (truthy (VDict kv)); cbn [get_method] in He; discriminate.
    + unfold py_or in He. cbn [truthy] in He.
      destruct kv; cbn [get_method] in He; discriminate.
  - intros [Hn | (kv & v & -> & Hg & Hv & Hn)].
    + destruct d; try (eexists; reflexivity). now contradiction (Hn kv).
    + unfold read_urgency, select_result. cbn [get_method].
      unfold dict_get_default. rewrite Hg. unfold py_or. rewrite Hv, Hv.
      destruct v; try (eexists; reflexivity). now contradiction (Hn kv0).
Qed.

(** C6, amended.  When the urgency read from the decision result is a
    string equal to "high" or "urgent" up to case, the heuristic returns
    the pair of [calendar.get_events] with [timeMin], [timeMax] and
    [maxResults] 50.  When an urgency is read and is anything else (the
    default for an absent key, a value that is no string, another string),
    it returns the pair of [gmail.search_emails] with the query "meeting"
    and [maxResults] 20.  When reading the urgency raises, which happens
    exactly when the decision result, or the truthy value under its
    [result] key, is not a mapping, it returns no pair. *)
Theorem next_action_follows_the_urgency (W : World) (d : value) (st : state) :
  (forall s, read_urgency d = Return (VStr s) -> urgent_text s ->
     _suggest_next_action W d st
     = (Return (Some ("calendar.get_events", calendar_params W st)),
        after_clock st)
     /\ map fst (calendar_params W st) = ["timeMin"; "timeMax"; "maxResults"]
     /\ dict_get "maxResults" (calendar_params W st) = Some (VInt 50))
  /\ (forall u, read_urgency d = Return u ->
        ~ (exists s, u = VStr s /\ urgent_text s) ->
        _suggest_next_action W d st
        = (Return (Some ("gmail.search_emails",
                         [("query", VStr "meeting"); ("maxResults", VInt 20)])),
           st))
  /\ (forall e, read_urgency d = Raise e ->
        _suggest_next_action W d st = (Return None, st))
  /\ ((exists e, read_urgency d = Raise e)
      <-> (forall kv, d <> VDict kv)
          \/ (exists kv v, d = VDict kv /\ dict_get "result" kv = Some v
                           /\ truthy v = true
                           /\ forall kv', v <> VDict kv')).
Proof.
  repeat split.
  - apply (suggest_urgent W d (VStr s) st H).
    apply is_urgent_iff. now exists s.
  - intros u Hu Hn. apply (suggest_other W d u st Hu).
    destruct (is_urgent u) eqn:Hi; [|reflexivity].
    apply is_urgent_iff in Hi. contradiction.
  - intros e He. exact (suggest_error W d e st He).
  - apply read_urgency_raises.
  - apply read_urgency_raises.
Qed.

Lemma next_action_follows_the_urgency_witness :
  _suggest_next_action quiet_world
    (VDict [("result", VDict [("urgencyLevel", VStr "High")])]) initial
  = (Return (Some ("calendar.get_events", calendar_params quiet_world initial)),
     after_clock initial)
  /\ map fst (calendar_params quiet_world initial)
     = ["timeMin"; "timeMax"; "maxResults"]
  /\ dict_get "maxResults" (calendar_params quiet_world initial)
     = Some (VInt 50).
Proof.
  apply (proj1 (next_action_follows_the_urgency quiet_world
                  (VDict [("result", VDict [("urgencyLevel", VStr "High")])])
                  initial) "High").
  - reflexivity.
  - left. reflexivity.
Defined.

(** ** Where the urgency is read *)

Lemma dict_get_smaller (k : string) (kv : dict) (v : value) :
  dict_get k kv = Some v -> size v < size (VDict kv).
Proof.
  induction kv as [|[k' v'] kv IH]; simpl; [discriminate|].
  destruct (String.eqb k k').
  - intros H; injection H as ->. lia.
  - intros H. specialize (IH H). simpl in IH. lia.
Qed.

Lemma dict_get_proper (k : string) (kv : dict) (v : value) :
  dict_get k kv = Some v -> v <> VDict kv.
Proof.
  intros H ->. apply dict_get_smaller in H. lia.
Qed.

(** C7, as stated, fails: with an empty mapping under [result], the key
    exists, and the urgency is read from the top level all the same. *)
Lemma an_empty_result_falls_back_too :
  ~ stated_urgency_source
      [("result", VDict []); ("urgencyLevel", VStr "high")].
Proof.
  unfold stated_urgency_source. vm_compute. discriminate.
Qed.

(** C7, amended.  For a decision result that is a mapping: when the value
    under [result] is truthy, the urgency is read from that value (and that
    value is not the mapping itself); the heuristic falls back to reading
    [urgencyLevel] from the top-level mapping exactly when there is no
    [result] key or the value under it is falsy. *)
Theorem urgency_is_read_from_a_truthy_result (kv : dict) :
  (forall v, dict_get "result" kv = Some v -> truthy v = true ->
     select_result (VDict kv) = Return v
     /\ read_urgency (VDict kv) = get_method v "urgencyLevel" (VStr "")
     /\ v <> VDict kv)
  /\ (dict_get "result" kv = None
      \/ (exists v, dict_get "result" kv = Some v /\ truthy v = false) ->
      select_result (VDict kv) = Return (VDict kv)
      /\ read_urgency (VDict kv)
         = Return (dict_get_default "urgencyLevel" (VStr "") kv))
  /\ (select_result (VDict kv) = Return (VDict kv)
      <-> dict_get "result" kv = None
          \/ exists v, dict_get "result" kv = Some v /\ truthy v = false).
Proof.
  assert (Hnested : forall v, dict_get "result" kv = Some v ->
            truthy v = true -> select_result (VDict kv) = Return v).
  { intros v Hg Hv. unfold select_result. cbn [get_method].
    unfold dict_get_default. rewrite Hg. unfold py_or. now rewrite Hv. }
  assert (Htop : dict_get "result" kv = None
            \/ (exists v, dict_get "result" kv = Some v /\ truthy v = false) ->
            select_result (VDict kv) = Return (VDict kv)).
  { intros [Hg | (v & Hg & Hv)]; unfold select_result; cbn [get_method];
      unfold dict_get_default; rewrite Hg; unfold py_or.
    - reflexivity.
    - now rewrite Hv. }
  split; [|split].
  - intros v Hg Hv. split; [now apply Hnested|]. split.
    + unfold read_urgency. rewrite (Hnested v Hg Hv).
      unfold py_or. now rewrite Hv.
    + exact (dict_get_proper "result" kv v Hg).
  - intros H. split; [now apply Htop|].
    unfold read_urgency. rewrite (Htop H). unfold py_or.
    destruct kv; reflexivity.
  - split; [|exact Htop].
    intros Hs. destruct (dict_get "result" kv) as [v|] eqn:Hg; [|now left].
    right. exists v. split; [reflexivity|].
    destruct (truthy v) eqn:Hv; [|reflexivity].
    rewrite (Hnested v eq_refl Hv) in Hs. injection Hs as Heq.
    now contradiction (dict_get_proper "result" kv v Hg).
Qed.

Lemma urgency_is_read_from_a_truthy_result_witness :
  select_result
    (VDict [("result", VDict [("urgencyLevel", VStr "low")]);
            ("urgencyLevel", VStr "high")])
  = Return (VDict [("urgencyLevel", VStr "low")])
  /\ read_urgency
       (VDict [("result", VDict [("urgencyLevel", VStr "low")]);
               ("urgencyLevel", VStr "high")])
     = get_method (VDict [("urgencyLevel", VStr "low")]) "urgencyLevel"
         (VStr "")
  /\ VDict [("urgencyLevel", VStr "low")]
     <> VDict [("result", VDict [("urgencyLevel", VStr "low")]);
               ("urgencyLevel", VStr "high")].
Proof.
  apply (proj1 (urgency_is_read_from_a_truthy_result
                  [("result", VDict [("urgencyLevel", VStr "low")]);
                   ("urgencyLevel", VStr "high")])).
  - reflexivity.
  - reflexivity.
Defined.

(** ** The explicit task that fails *)

(** The calls of the automatic path: the decision request, then at most
    one follow-up request. *)
Lemma automatic_calls (W : World) (input trace_id routed_task : string)
    (errors : list value) (st : state) :
  let req := decision_request W input trace_id in
  let rep := answer W st req in
  exists rest,
    calls (snd (automatic W input trace_id routed_task errors st))
    = (calls st ++ (req, rep) :: rest)%list
    /\ List.length rest <= 1
    /\ forall c, In c rest ->
         exists task params,
           fst c = follow_up_request W task params trace_id.
Proof.
  intros req rep. rewrite automatic_unfold. fold req; fold rep.
  set (st1 := record_call st req rep).
  assert (Hone : exists rest,
            calls st1 = (calls st ++ (req, rep) :: rest)%list
            /\ List.length rest <= 1
            /\ forall c, In c rest ->
                 exists task params,
                   fst c = follow_up_request W task params trace_id).
  { exists []. repeat split; [simpl; lia | intros c []]. }
  destruct (response_value rep) as [r|e]; [|exact Hone].
  destruct (_ok r) as [[|]|e]; try exact Hone.
  destruct (fst (suggestion W r st1)) as [[task params]|] eqn:Hs.
  - rewrite (follow_up_unfold W task params trace_id _ _ _
               (suggestion_tasks W r st1 task params Hs)).
    set (req2 := follow_up_request W task params trace_id).
    set (rep2 := answer W (snd (suggestion W r st1)) req2).
    assert (Htwo : calls (record_call (snd (suggestion W r st1)) req2 rep2)
                   = (calls st ++ [(req, rep); (req2, rep2)])%list).
    { cbn [record_call calls]. rewrite suggestion_calls.
      subst st1. cbn [record_call calls]. now rewrite <- app_assoc. }
    exists [(req2, rep2)].
    destruct (response_value rep2); cbn [snd]; rewrite Htwo;
      (repeat split; [simpl; lia |]);
      intros c [<- | []]; exists task, params; reflexivity.
  - cbn [follow_up ret snd]. rewrite (suggestion_none W r st1 Hs). exact Hone.
Qed.

(** C9, as stated, fails: when the decision analysis fails as well, the
    output is the note, not the result of the decision analysis. *)
Lemma output_is_the_note_when_the_decision_fails :
  ~ stated_fall_through failing_world "x" "unknown.foo" None initial.
Proof.
  intros H.
  destruct (H (ValueError "Unknown task: unknown.foo") initial
              (returned (query failing_world "x" (Some "unknown.foo") None
                           initial))
              (snd (query failing_world "x" (Some "unknown.foo") None initial))
              eq_refl eq_refl) as [_ (r & Hr & Hout)].
  vm_compute in Hr. injection Hr as <-.
  vm_compute in Hout. discriminate.
Qed.

(** C9, amended.  When the dispatch of an explicit task raises, the record
    [{task, message}] is the first entry of [errors] and the invocation goes
    on as the automatic path: the next call is the decision analysis of the
    same input; from there on the calls made, the tool calls recorded and
    the output are those of a query without task, so the explicit task is
    not dispatched again.  In the envelope returned, the output is the
    result of the decision analysis when that result does not count as
    failed, and the note [{"note": "decision analysis failed"}] when it
    does. *)
Theorem failed_task_falls_through_to_the_analysis
    (W : World) (input : string) (task : option string)
    (parameters : option dict) (st st1 : state) (t : string) (e : exn) :
  explicit task = Some t ->
  _execute_task W t (params_of parameters) (trace_of W) st = (Raise e, st1) ->
  let req := decision_request W input (trace_of W) in
  let rep := answer W st1 req in
  query W input task parameters st
  = automatic W input (trace_of W) t [error_record t (str_exn e)] st1
  /\ payload req
     = VDict [("action", VStr "analyze_situation");
              ("parameters", VDict [("context", VStr input)])]
  /\ url req = endpoint_url W "decision"
  /\ nth_error (calls (snd (query W input task parameters st)))
       (List.length (calls st1)) = Some (req, rep)
  /\ snd (query W input task parameters st)
     = snd (query W input None None st1)
  /\ forall env st',
       query W input task parameters st = (Return env, st') ->
       (exists more,
          entries "errors" env = error_record t (str_exn e) :: more)
       /\ (exists env0,
             fst (query W input None None st1) = Return env0
             /\ field "toolCalls" env = field "toolCalls" env0
             /\ field "output" env = field "output" env0)
       /\ exists r,
            response_value rep = Return r
            /\ ((_ok r = Return true /\ field "output" env = Some r)
                \/ (_ok r = Return false
                    /\ field "output" env = Some failure_note)).
Proof.
  intros Ht Hx req rep.
  assert (Hreach : reaches_analysis W task parameters st
                     [error_record t (str_exn e)] st1)
    by (now apply reaches_after_failure).
  assert (Hroute : routed_of task = t)
    by (destruct (explicit_some _ _ Ht) as [-> _]; reflexivity).
  assert (Hq : query W input task parameters st
               = automatic W input (trace_of W) t
                   [error_record t (str_exn e)] st1)
    by (rewrite (query_automatic W input task parameters st st1 _ Hreach);
        now rewrite Hroute).
  assert (Hq0 : query W input None None st1
                = automatic W input (trace_of W) "" [] st1)
    by (apply (query_automatic W input None None st1 st1 []);
        now apply reaches_without_task).
  destruct (automatic_independent W input (trace_of W) t
              [error_record t (str_exn e)] st1) as [Hstate Hsame].
  split; [exact Hq|]. split; [reflexivity|]. split; [reflexivity|]. split.
  { rewrite Hq.
    destruct (automatic_calls W input (trace_of W) t
                [error_record t (str_exn e)] st1) as (rest & -> & _).
    rewrite nth_error_app2 by lia. now rewrite Nat.sub_diag. }
  split; [now rewrite Hq, Hq0|].
  intros env st' Hret. rewrite Hq in Hret. rewrite Hret in Hsame.
  rewrite Hq0. cbn [fst] in Hsame.
  pose proof (automatic_runs W input (trace_of W) t
                [error_record t (str_exn e)] st1) as Hrun.
  rewrite Hret in Hrun.
  split; [|split].
  - inversion Hrun; subst; eexists; cbn; reflexivity.
  - destruct (fst (automatic W input (trace_of W) "" [] st1)) as [env0|];
      [|contradiction].
    exists env0. split; [reflexivity | exact Hsame].
  - inversion Hrun; subst; inline_locals;
      match goal with
      | H : response_value _ = Return ?r |- _ => exists r; split; [exact H|]
      end;
      first [ left; split; [assumption | reflexivity]
            | right; split; [assumption | reflexivity] ].
Qed.

Lemma failed_task_falls_through_to_the_analysis_witness :
  explicit (Some "unknown.foo") = Some "unknown.foo"
  /\ _execute_task failing_world "unknown.foo" (params_of None)
       (trace_of failing_world) initial
     = (Raise (ValueError "Unknown task: unknown.foo"), initial)
  /\ query failing_world "x" (Some "unknown.foo") None initial
     = automatic failing_world "x" (trace_of failing_world) "unknown.foo"
         [error_record "unknown.foo" "Unknown task: unknown.foo"] initial
  /\ snd (query failing_world "x" (Some "unknown.foo") None initial)
     = snd (query failing_world "x" None None initial).
Proof.
  split; [reflexivity|]. split; [reflexivity|].
  pose proof (failed_task_falls_through_to_the_analysis failing_world "x"
                (Some "unknown.foo") None initial initial "unknown.foo"
                (ValueError "Unknown task: unknown.foo") eq_refl eq_refl)
    as (Hq & _ & _ & _ & Hs & _).
  split; [exact Hq | exact Hs].
Defined.

(** ** The routed task *)

(** C10, as stated, fails: the explicit task is not recognised, the
    decision analysis fails, no follow-up pair is produced, and the routed
    task is the explicit task, not the empty string. *)
Lemma routed_task_is_kept_when_the_decision_fails :
  ~ stated_routed_task failing_world "x" (Some "unknown.foo") None initial.
Proof.
  intros H.
  specialize (H [error_record "unknown.foo"
                   (str_exn (ValueError "Unknown task: unknown.foo"))]
                initial
                (returned (query failing_world "x" (Some "unknown.foo") None
                             initial))
                (snd (query failing_world "x" (Some "unknown.foo") None
                        initial))
                (reaches_after_failure failing_world (Some "unknown.foo") None
                   initial "unknown.foo"
                   (ValueError "Unknown task: unknown.foo") initial
                   eq_refl eq_refl)
                eq_refl).
  vm_compute in H. discriminate.
Qed.

Lemma final_routed_task_explicit (task : option string)
    (next_action : option (string * dict)) :
  final_routed_task (routed_of task) next_action
  = routed_by_the_pair task next_action.
Proof.
  destruct next_action as [[t p]|]; [|reflexivity].
  destruct task as [t0|]; simpl; [|reflexivity].
  destruct (String.eqb t0 ""); reflexivity.
Qed.

(** C10, amended.  On an invocation that reaches the automatic path and
    returns an envelope: when the decision analysis counts as failed, the
    routed task is the explicit task string, or the empty string without
    one; when it does not, the heuristic is consulted, and the routed task
    is the empty string if it gives no follow-up pair (even after an
    explicit task whose dispatch failed), and otherwise the explicit task
    string if a task that is not empty was given, and the follow-up task if
    not. *)
Theorem routed_task_after_the_analysis
    (W : World) (input : string) (task : option string)
    (parameters : option dict) (st st1 st' : state) (errors : list value)
    (env : value) :
  reaches_analysis W task parameters st errors st1 ->
  query W input task parameters st = (Return env, st') ->
  let req := decision_request W input (trace_of W) in
  let rep := answer W st1 req in
  exists r,
    response_value rep = Return r
    /\ ((_ok r = Return false
         /\ field "routedTask" env = Some (VStr (routed_of task)))
        \/ (_ok r = Return true
            /\ forall next_action st2,
                 _suggest_next_action W r (record_call st1 req rep)
                 = (Return next_action, st2) ->
                 field "routedTask" env
                 = Some (VStr (routed_by_the_pair task next_action)))).
Proof.
  intros Hreach Hq req rep.
  rewrite (query_automatic W input task parameters st st1 errors Hreach) in Hq.
  pose proof (automatic_runs W input (trace_of W) (routed_of task) errors st1)
    as Hrun.
  rewrite Hq in Hrun.
  inversion Hrun; subst; inline_locals;
    match goal with
    | H : response_value _ = Return ?r |- _ => exists r; split; [exact H|]
    end.
  - left. split; [assumption | reflexivity].
  - right. split; [assumption|]. intros next_action st2 Hs.
    rewrite suggest_run in Hs. injection Hs as <- _.
    match goal with
    | H : fst (suggestion _ _ _) = None |- _ => rewrite H
    end.
    reflexivity.
  - right. split; [assumption|]. intros next_action st2 Hs.
    rewrite suggest_run in Hs. injection Hs as <- _.
    match goal with
    | H : fst (suggestion _ _ _) = Some _ |- _ => rewrite H
    end.
    rewrite <- final_routed_task_explicit. reflexivity.
  - right. split; [assumption|]. intros next_action st2 Hs.
    rewrite suggest_run in Hs. injection Hs as <- _.
    match goal with
    | H : fst (suggestion _ _ _) = Some _ |- _ => rewrite H
    end.
    rewrite <- final_routed_task_explicit. reflexivity.
Qed.

Lemma routed_task_after_the_analysis_witness :
  exists r,
    response_value
      (answer failing_world initial
         (decision_request failing_world "x" (trace_of failing_world)))
    = Return r
    /\ ((_ok r = Return false
         /\ field "routedTask"
              (returned (query failing_world "x" (Some "unknown.foo") None
                           initial))
            = Some (VStr (routed_of (Some "unknown.foo"))))
        \/ (_ok r = Return true
            /\ forall next_action st2,
                 _suggest_next_action failing_world r
                   (record_call initial
                      (decision_request failing_world "x"
                         (trace_of failing_world))
                      (answer failing_world initial
                         (decision_request failing_world "x"
                            (trace_of failing_world))))
                 = (Return next_action, st2) ->
                 field "routedTask"
                   (returned (query failing_world "x" (Some "unknown.foo")
                                None initial))
                 = Some (VStr (routed_by_the_pair (Some "unknown.foo") next_action)))).
Proof.
  exact (routed_task_after_the_analysis failing_world "x"
           (Some "unknown.foo") None initial initial
           (snd (query failing_world "x" (Some "unknown.foo") None initial))
           [error_record "unknown.foo"
              (str_exn (ValueError "Unknown task: unknown.foo"))]
           (returned (query failing_world "x" (Some "unknown.foo") None
                        initial))
           (reaches_after_failure failing_world (Some "unknown.foo") None
              initial "unknown.foo" (ValueError "Unknown task: unknown.foo")
              initial eq_refl eq_refl)
           eq_refl).
Defined.

(** ** The shape of the envelope *)

Lemma envelope_well_formed (trace_id input routed_task : string)
    (tool_calls : list value) (output : value) (errors : list value) :
  well_formed (envelope trace_id input routed_task tool_calls output errors).
Proof.
  repeat split; [exists tool_calls | exists errors]; reflexivity.
Qed.

(** Whatever [query] returns is an envelope. *)
Lemma query_returns_an_envelope (W : World) (input : string)
    (task : option string) (parameters : option dict) (st st' : state)
    (env : value) :
  query W input task parameters st = (Return env, st') -> well_formed env.
Proof.
  intros Hq. pose proof (query_runs W input task parameters st) as Hrun.
  rewrite Hq in Hrun.
  inversion Hrun as [t result st1 Ht Hx | errors st1 o Hreach Hauto]; subst.
  - apply envelope_well_formed.
  - inversion Hauto; subst; apply envelope_well_formed.
Qed.

(** C1.  [query("x")] raises to its caller when the decision service
    answers with a JSON list: [_ok] calls [get] on it, outside any [try].
    It raises as well when the decision call ends in an exception that is
    neither [HTTPError] nor [URLError].  In both runs one call was made and
    no envelope is returned. *)
Theorem query_raises_to_its_caller :
  (exists st',
     query list_world "x" None None initial
     = (Raise (AttributeError "'list' object has no attribute 'get'"), st')
     /\ List.length (calls st') = 1)
  /\ (exists st',
        query broken_world "x" None None initial
        = (Raise (OtherError
                    "'utf-8' codec can't decode byte 0xff in position 0"),
           st')
        /\ List.length (calls st') = 1).
Proof.
  split; eexists; split; vm_compute; reflexivity.
Qed.

(** ** Truncation *)

(** C8.  For the response [{"success": true, "text": "aaa..."}] with 6000
    letters, whose serialization is longer than the limit of 6000, the
    first 6000 characters of the serialization are not JSON, and
    [_safe_slice] returns the response itself.  So the [result] stored in
    the tool-call record of [query("x", "backend.minutes")] serializes to
    more than 6000 characters.  The output is the response, untruncated. *)
Theorem safe_slice_keeps_a_long_response :
  6000 < String.length (dumps long_response)
  /\ loads (take 6000 (dumps long_response)) = None
  /\ _safe_slice long_response = long_response
  /\ exists env st' record,
       query verbose_world "x" (Some "backend.minutes") None initial
       = (Return env, st')
       /\ entries "toolCalls" env = [record]
       /\ field "result" record = Some long_response
       /\ field "output" env = Some long_response.
Proof.
  split; [vm_compute; lia|]. split; [vm_compute; reflexivity|].
  split; [vm_compute; reflexivity|].
  eexists; eexists; eexists.
  split; [vm_compute; reflexivity|].
  split; [vm_compute; reflexivity|].
  split; vm_compute; reflexivity.
Qed.

(** ** The headers of a call *)

(** X1.  The headers of every request hold the content type, the trace id
    given and the project id.  The shared-secret header is sent with the
    configured secret when the environment holds one that is not empty;
    when it holds none, or an empty one, the header is absent and the
    headers are the three fixed ones. *)
Theorem headers_hold_trace_project_and_secret (W : World) (trace_id : string) :
  assoc "Content-Type" (_headers W trace_id) = Some "application/json"
  /\ assoc "X-Trace-Id" (_headers W trace_id) = Some trace_id
  /\ assoc "X-Project" (_headers W trace_id) = Some (PROJECT_ID W)
  /\ (forall s, getenv W "SM_SHARED_SECRET" = Some s -> s <> "" ->
        assoc "X-Shared-Secret" (_headers W trace_id) = Some s)
  /\ (getenv W "SM_SHARED_SECRET" = None
      \/ getenv W "SM_SHARED_SECRET" = Some "" ->
      assoc "X-Shared-Secret" (_headers W trace_id) = None
      /\ map fst (_headers W trace_id)
         = ["Content-Type"; "X-Trace-Id"; "X-Project"]).
Proof.
  unfold _headers, SHARED_SECRET, getenv_default.
  destruct (getenv W "SM_SHARED_SECRET") as [s|] eqn:Hs.
  - destruct (String.eqb s "") eqn:He.
    + apply String.eqb_eq in He; subst s. cbn.
      repeat split; try reflexivity.
      intros s Heq Hne. injection Heq as <-. now contradiction Hne.
    + cbn. repeat split; try reflexivity.
      * intros s' Heq _. now injection Heq as <-.
      * destruct H as [H | H]; [discriminate|].
        injection H as ->. discriminate.
      * destruct H as [H | H]; [discriminate|].
        injection H as ->. discriminate.
  - cbn. repeat split; try reflexivity. intros s Heq; discriminate.
Qed.

Lemma headers_hold_trace_project_and_secret_witness :
  getenv secret_world "SM_SHARED_SECRET" = Some "s3cret"
  /\ assoc "X-Shared-Secret" (_headers secret_world "t") = Some "s3cret".
Proof.
  split; [reflexivity|].
  destruct (headers_hold_trace_project_and_secret secret_world "t")
    as (_ & _ & _ & H & _).
  apply H; [reflexivity | discriminate].
Defined.

(** ** What [_post_json] makes of an answer *)



(** ** The heuristic as a whole *)

(** X6.  Whatever value it is given, the heuristic returns: it never
    raises.  It makes no outbound call.  It gives no pair, the mail pair or
    the calendar pair, and it reads the clock only for the calendar pair,
    twice. *)
Theorem heuristic_returns_without_any_call (W : World) (d : value) (st : state) :
  exists next_action st',
    _suggest_next_action W d st = (Return next_action, st')
    /\ calls st' = calls st
    /\ ((next_action = None /\ st' = st)
        \/ (next_action = Some ("gmail.search_emails", gmail_params)
            /\ st' = st)
        \/ (next_action = Some ("calendar.get_events", calendar_params W st)
            /\ clock_reads st' = 2 + clock_reads st)).
Proof.
  exists (fst (suggestion W d st)), (snd (suggestion W d st)).
  split; [apply suggest_run|]. split; [apply suggestion_calls|].
  unfold suggestion. destruct (read_urgency d) as [u|e].
  - destruct (is_urgent u).
    + right; right. split; reflexivity.
    + right; left. split; reflexivity.
  - left. split; reflexivity.
Qed.

(** ** The back-end shortcuts *)

(** X10.  The two back-end shortcuts are matched as whole strings: a task
    that starts with [backend.] and goes on with anything but [minutes] or
    [mindmap] is rejected as unknown, without any call. *)
Theorem other_backend_tasks_are_unknown
    (W : World) (rest : string) (params : dict) (trace_id : string)
    (st : state) :
  rest <> "minutes" -> rest <> "mindmap" ->
  _execute_task W ("backend." ++ rest) params trace_id st
  = (Raise (ValueError ("Unknown task: backend." ++ rest)), st).
Proof.
  intros H1 H2. apply execute_unknown.
  intros [(ns & a & Hin & Heq) | Hin]; simpl in Hin.
  - repeat (destruct Hin as [<- | Hin]; [simpl in Heq; discriminate|]).
    contradiction.
  - destruct Hin as [Heq | [Heq | []]]; simpl in Heq;
      injection Heq as Heq; congruence.
Qed.

Lemma other_backend_tasks_are_unknown_witness :
  _execute_task quiet_world ("backend." ++ "minutes.draft") [] "t" initial
  = (Raise (ValueError ("Unknown task: backend." ++ "minutes.draft")),
     initial).
Proof.
  apply (other_backend_tasks_are_unknown quiet_world "minutes.draft" [] "t"
           initial); discriminate.
Defined.

(** ** The calls of an invocation *)

Lemma take_length (n : nat) (s : string) :
  String.length (take n s) = Nat.min n (String.length s).
Proof.
  unfold take. revert s; induction n as [|n IH]; intros [|c s]; simpl;
    try reflexivity.
  now rewrite IH.
Qed.

Lemma take_prefix (n : nat) (s : string) : exists rest, s = take n s ++ rest.
Proof.
  unfold take. revert s; induction n as [|n IH]; intros [|c s]; simpl.
  - now exists "".
  - now exists (String c s).
  - now exists "".
  - destruct (IH s) as [rest Hrest]. exists rest. now rewrite <- Hrest.
Qed.

Lemma append_nil (s : string) : s ++ "" = s.
Proof. induction s as [|c s IH]; simpl; [reflexivity | now rewrite IH]. Qed.

Lemma append_length (a b : string) :
  String.length (a ++ b) = String.length a + String.length b.
Proof. induction a as [|c a IH]; simpl; [reflexivity | now rewrite IH]. Qed.

(** A recognised task makes one call, built by [_post_json] for the trace
    id it was given. *)
Lemma execute_request (W : World) (task : string) (params : dict)
    (trace_id : string) (st : state) :
  recognised task ->
  exists u body,
    _execute_task W task params trace_id st
    = (response_value (answer W st (post_request W u body trace_id)),
       record_call st (post_request W u body trace_id)
         (answer W st (post_request W u body trace_id))).
Proof.
  intros [(ns & a & Hin & ->) | Hin]; simpl in Hin.
  - repeat (destruct Hin as [<- | Hin];
            [eexists; eexists; reflexivity|]).
    contradiction.
  - repeat (destruct Hin as [<- | Hin];
            [eexists; eexists; reflexivity|]).
    contradiction.
Qed.

(** The calls of the automatic path, with the follow-up request in
    full. *)
Lemma automatic_calls_detail (W : World) (input trace_id routed_task : string)
    (errors : list value) (st : state) :
  let req := decision_request W input trace_id in
  let rep := answer W st req in
  let st1 := record_call st req rep in
  calls (snd (automatic W input trace_id routed_task errors st))
  = (calls st ++ [(req, rep)])%list
  \/ exists r task params,
       response_value rep = Return r /\ _ok r = Return true
       /\ fst (suggestion W r st1) = Some (task, params)
       /\ calls (snd (automatic W input trace_id routed_task errors st))
          = (calls st
               ++ [(req, rep);
                   (follow_up_request W task params trace_id,
                    answer W (snd (suggestion W r st1))
                      (follow_up_request W task params trace_id))])%list.
Proof.
  intros req rep st1. rewrite automatic_unfold. fold req; fold rep; fold st1.
  destruct (response_value rep) as [r|e] eqn:Hr; [|left; reflexivity].
  destruct (_ok r) as [[|]|e] eqn:Hok; try (left; reflexivity).
  destruct (fst (suggestion W r st1)) as [[task params]|] eqn:Hs.
  - right. exists r, task, params. repeat split; try assumption.
    rewrite (follow_up_unfold W task params trace_id _ _ _
               (suggestion_tasks W r st1 task params Hs)).
    destruct (response_value
                (answer W (snd (suggestion W r st1))
                   (follow_up_request W task params trace_id)));
      cbn [snd record_call calls]; rewrite suggestion_calls;
      subst st1; cbn [record_call calls]; now rewrite <- app_assoc.
  - left. cbn [follow_up ret snd]. now rewrite (suggestion_none W r st1 Hs).
Qed.

Lemma suggestion_pairs (W : World) (d : value) (st : state)
    (task : string) (params : dict) :
  fst (suggestion W d st) = Some (task, params) ->
  (task = "calendar.get_events" /\ params = calendar_params W st)
  \/ (task = "gmail.search_emails" /\ params = gmail_params).
Proof.
  unfold suggestion. destruct (read_urgency d) as [u|e]; [|discriminate].
  destruct (is_urgent u); simpl; intros H; injection H as <- <-; auto.
Qed.

(** X5.  On every invocation that reaches the automatic path, the calls
    made from there on are the decision request, with the input as
    context, and then at most one request, which goes to the calendar tool
    with the action [get_events] or to the mail tool with the action
    [search_emails].  Nothing is sent to the drive tool, the data pipeline
    or the back end. *)
Theorem automatic_path_calls_decision_then_one_tool
    (W : World) (input : string) (task : option string)
    (parameters : option dict) (st st1 : state) (errors : list value) :
  reaches_analysis W task parameters st errors st1 ->
  let req := decision_request W input (trace_of W) in
  exists rest,
    calls (snd (query W input task parameters st))
    = (calls st1 ++ (req, answer W st1 req) :: rest)%list
    /\ url req = endpoint_url W "decision"
    /\ payload req
       = VDict [("action", VStr "analyze_situation");
                ("parameters", VDict [("context", VStr input)])]
    /\ List.length rest <= 1
    /\ forall c, In c rest ->
         calendar_follow_up W (fst c) \/ gmail_follow_up W (fst c).
Proof.
  intros Hreach req.
  rewrite (query_automatic W input task parameters st st1 errors Hreach).
  destruct (automatic_calls_detail W input (trace_of W) (routed_of task)
              errors st1)
    as [Hone | (r & t & p & Hr & Hok & Hs & Htwo)].
  - exists []. rewrite Hone. repeat split; [simpl; lia | intros c []].
  - eexists [_]. rewrite Htwo. repeat split; [simpl; lia|].
    intros c [<- | []]. cbn [fst].
    destruct (suggestion_pairs W r _ t p Hs) as [[-> ->] | [-> ->]].
    + left. split; [reflexivity|].
      eexists; split; [reflexivity|]. split; reflexivity.
    + right. split; reflexivity.
Qed.

Lemma automatic_path_calls_decision_then_one_tool_witness :
  exists rest,
    calls (snd (query quiet_world "x" None None initial))
    = (calls initial
         ++ (decision_request quiet_world "x" (trace_of quiet_world),
             answer quiet_world initial
               (decision_request quiet_world "x" (trace_of quiet_world)))
            :: rest)%list
    /\ url (decision_request quiet_world "x" (trace_of quiet_world))
       = endpoint_url quiet_world "decision"
    /\ payload (decision_request quiet_world "x" (trace_of quiet_world))
       = VDict [("action", VStr "analyze_situation");
                ("parameters", VDict [("context", VStr "x")])]
    /\ List.length rest <= 1
    /\ forall c, In c rest ->
         calendar_follow_up quiet_world (fst c)
         \/ gmail_follow_up quiet_world (fst c).
Proof.
  exact (automatic_path_calls_decision_then_one_tool quiet_world "x" None
           None initial initial []
           (reaches_without_task quiet_world None None initial eq_refl)).
Defined.

Lemma headers_trace_id (W : World) (trace_id : string) :
  assoc "X-Trace-Id" (_headers W trace_id) = Some trace_id.
Proof.
  unfold _headers. destruct (negb (String.eqb (SHARED_SECRET W) ""));
    reflexivity.
Qed.

Lemma follow_up_request_posted (W : World) (task : string) (params : dict) :
  posted_with_trace W (follow_up_request W task params (trace_of W)).
Proof.
  unfold follow_up_request.
  destruct (String.eqb task "calendar.get_events");
    eexists; eexists; reflexivity.
Qed.

Lemma automatic_calls_posted (W : World) (input routed_task : string)
    (errors : list value) (st : state) :
  exists new,
    calls (snd (automatic W input (trace_of W) routed_task errors st))
    = (calls st ++ new)%list
    /\ 1 <= List.length new <= 2
    /\ forall c, In c new -> posted_with_trace W (fst c).
Proof.
  destruct (automatic_calls_detail W input (trace_of W) routed_task errors st)
    as [Hone | (r & t & p & _ & _ & _ & Htwo)].
  - eexists [_]. rewrite Hone. split; [reflexivity|].
    split; [simpl; lia|].
    intros c [<- | []]. eexists; eexists; reflexivity.
  - eexists [_; _]. rewrite Htwo. split; [reflexivity|].
    split; [simpl; lia|].
    intros c [<- | [<- | []]].
    + eexists; eexists; reflexivity.
    + apply follow_up_request_posted.
Qed.

(** X2.  Every call made during an invocation of [query], whether the
    invocation returns or raises, carries the headers built for the one
    trace id of the invocation and the timeout 25; there is at least one
    such call and there are at most three.  The trace id has at most 16 characters, and it is the
    [traceId] of the envelope when one is returned. *)
Theorem every_call_carries_the_trace_id
    (W : World) (input : string) (task : option string)
    (parameters : option dict) (st : state) :
  exists new,
    calls (snd (query W input task parameters st)) = (calls st ++ new)%list
    /\ 1 <= List.length new <= 3
    /\ (forall c, In c new ->
          headers (fst c) = _headers W (trace_of W)
          /\ assoc "X-Trace-Id" (headers (fst c)) = Some (trace_of W)
          /\ timeout (fst c) = 25%Z)
    /\ (forall env, fst (query W input task parameters st) = Return env ->
          field "traceId" env = Some (VStr (trace_of W)))
    /\ String.length (trace_of W) <= 16.
Proof.
  assert (Hposted : forall c : request * reply,
            posted_with_trace W (fst c) ->
            headers (fst c) = _headers W (trace_of W)
            /\ assoc "X-Trace-Id" (headers (fst c)) = Some (trace_of W)
            /\ timeout (fst c) = 25%Z).
  { intros c (u & body & ->). split; [reflexivity|]. split; [|reflexivity].
    apply headers_trace_id. }
  assert (Hnew : exists new,
            calls (snd (query W input task parameters st))
            = (calls st ++ new)%list
            /\ 1 <= List.length new <= 3
            /\ forall c, In c new -> posted_with_trace W (fst c)).
  { destruct (explicit task) as [t|] eqn:Ht.
    - destruct (execute_cases W t (params_of parameters) (trace_of W) st)
        as [[Hn Hraise] | [Hrec _]].
      + assert (Hreach : reaches_analysis W task parameters st
                           [error_record t
                              (str_exn (ValueError ("Unknown task: " ++ t)))]
                           st)
          by (now apply reaches_after_failure).
        rewrite (query_automatic W input task parameters st st _ Hreach).
        destruct (automatic_calls_posted W input (routed_of task)
                    [error_record t
                       (str_exn (ValueError ("Unknown task: " ++ t)))] st)
          as (new & Hc & Hl & Hp).
        exists new. split; [exact Hc|]. split; [lia | exact Hp].
      + destruct (execute_request W t (params_of parameters) (trace_of W) st
                    Hrec) as (u & body & Hx).
        set (req0 := post_request W u body (trace_of W)) in *.
        destruct (response_value (answer W st req0)) as [result|e] eqn:Hv.
        * rewrite (query_direct W input task parameters st _ t result Ht Hx).
          eexists [_]. cbn [snd record_call calls].
          split; [reflexivity|]. split; [simpl; lia|].
          intros c [<- | []]. now exists u, body.
        * assert (Hreach : reaches_analysis W task parameters st
                             [error_record t (str_exn e)]
                             (record_call st req0 (answer W st req0)))
            by (now apply reaches_after_failure).
          rewrite (query_automatic W input task parameters st _ _ Hreach).
          destruct (automatic_calls_posted W input (routed_of task)
                      [error_record t (str_exn e)]
                      (record_call st req0 (answer W st req0)))
            as (new & Hc & Hl & Hp).
          exists ((req0, answer W st req0) :: new). rewrite Hc.
          cbn [record_call calls]. rewrite <- app_assoc.
          split; [reflexivity|]. split; [simpl; lia|].
          intros c [<- | Hin]; [now exists u, body | now apply Hp].
    - assert (Hreach : reaches_analysis W task parameters st [] st)
        by (now apply reaches_without_task).
      rewrite (query_automatic W input task parameters st st _ Hreach).
      destruct (automatic_calls_posted W input (routed_of task) [] st)
        as (new & Hc & Hl & Hp).
      exists new. split; [exact Hc|]. split; [lia | exact Hp]. }
  destruct Hnew as (new & Hc & Hl & Hp).
  exists new. split; [exact Hc|]. split; [exact Hl|].
  split; [intros c Hin; apply Hposted; now apply Hp|]. split.
  - intros env Hret.
    pose proof (query_runs W input task parameters st) as Hrun.
    destruct (query W input task parameters st) as [o st'].
    cbn [fst] in Hret; subst o.
    inversion Hrun as [t result st1 Ht Hx | errors st1 o Hreach Hauto]; subst.
    + reflexivity.
    + inversion Hauto; subst; reflexivity.
  - unfold trace_of. rewrite take_length. lia.
Qed.

(** ** The explicit task whose call returns *)

(** X4.  When the call of a recognised explicit task comes back with any
    value, [query] returns at once: one tool call, the value as output, an
    empty list of errors, and no decision analysis.  That holds for a
    failure value too: after an HTTP error the list of errors is empty and
    the failure shows only in the output, which [_ok] counts as failed. *)
Theorem explicit_call_that_returns_ends_the_query
    (W : World) (input : string) (task : option string)
    (parameters : option dict) (st : state) (t : string) :
  explicit task = Some t ->
  recognised t ->
  exists u body,
    let req := post_request W u body (trace_of W) in
    let rep := answer W st req in
    (forall v, response_value rep = Return v ->
       query W input task parameters st
       = (Return (envelope (trace_of W) input t
                    [tool_call t (params_of parameters) v] v []),
          record_call st req rep))
    /\ (forall code reason, rep = HTTPError code reason ->
          exists env,
            query W input task parameters st = (Return env, record_call st req rep)
            /\ entries "errors" env = []
            /\ List.length (entries "toolCalls" env) = 1
            /\ field "output" env = Some (http_failure code reason)
            /\ _ok (http_failure code reason) = Return false).
Proof.
  intros Ht Hrec.
  destruct (execute_request W t (params_of parameters) (trace_of W) st Hrec)
    as (u & body & Hx).
  exists u, body. intros req rep. fold req in Hx. fold rep in Hx.
  assert (Hdirect : forall v, response_value rep = Return v ->
            query W input task parameters st
            = (Return (envelope (trace_of W) input t
                         [tool_call t (params_of parameters) v] v []),
               record_call st req rep)).
  { intros v Hv. rewrite Hv in Hx.
    exact (query_direct W input task parameters st _ t v Ht Hx). }
  split; [exact Hdirect|].
  intros code reason Hrep. eexists. split.
  - apply Hdirect. rewrite Hrep. reflexivity.
  - repeat split.
Qed.

Lemma explicit_call_that_returns_ends_the_query_witness :
  exists u body,
    forall v,
      response_value
        (answer failing_world initial
           (post_request failing_world u body (trace_of failing_world)))
      = Return v ->
      query failing_world "x" (Some "drive.list_files") None initial
      = (Return (envelope (trace_of failing_world) "x" "drive.list_files"
                   [tool_call "drive.list_files" (params_of None) v] v []),
         record_call initial
           (post_request failing_world u body (trace_of failing_world))
           (answer failing_world initial
              (post_request failing_world u body (trace_of failing_world)))).
Proof.
  assert (Hrec : recognised "drive.list_files").
  { left. exists "drive", "list_files". split; [simpl; auto | reflexivity]. }
  destruct (explicit_call_that_returns_ends_the_query failing_world "x"
              (Some "drive.list_files") None initial "drive.list_files"
              eq_refl Hrec) as (u & body & H & _).
  exists u, body. exact H.
Defined.

(** ** When [query] raises *)

Lemma ok_raises_iff (r : value) :
  (exists e, _ok r = Raise e)
  <-> truthy r = true /\ forall kv, r <> VDict kv.
Proof.
  unfold _ok. split.
  - intros [e He]. destruct (truthy r) eqn:Ht; [|discriminate].
    split; [reflexivity|]. intros kv ->. simpl in He. discriminate.
  - intros [Ht Hn]. rewrite Ht.
    destruct r; try (eexists; reflexivity). now contradiction (Hn kv).
Qed.

Lemma response_raises_iff (rep : reply) :
  (exists e, response_value rep = Raise e)
  <-> exists description, rep = Failure description.
Proof.
  split.
  - intros [e He]. destruct rep; simpl in He; try discriminate.
    + destruct (loads text); discriminate.
    + now exists description.
  - intros [d ->]. eexists; reflexivity.
Qed.

(** X7.  [query] raises to its caller exactly when the invocation reaches
    the decision analysis and the decision call either ends in an exception
    that [_post_json] does not catch, or returns a truthy value that is not
    a mapping.  An explicit task never makes [query] raise, and neither
    does the follow-up call. *)
Theorem query_raises_exactly_at_the_decision_call
    (W : World) (input : string) (task : option string)
    (parameters : option dict) (st : state) :
  (exists e st', query W input task parameters st = (Raise e, st'))
  <-> exists errors st1,
        reaches_analysis W task parameters st errors st1
        /\ ((exists description,
               answer W st1 (decision_request W input (trace_of W))
               = Failure description)
            \/ exists r,
                 response_value
                   (answer W st1 (decision_request W input (trace_of W)))
                 = Return r
                 /\ truthy r = true /\ forall kv, r <> VDict kv).
Proof.
  split.
  - intros (e & st' & Hq).
    pose proof (query_runs W input task parameters st) as Hrun.
    rewrite Hq in Hrun.
    inversion Hrun as [ | errors st1 o Hreach Hauto]; subst.
    exists errors, st1. split; [exact Hreach|].
    inversion Hauto; subst; inline_locals.
    + left. apply response_raises_iff. eexists; eassumption.
    + right. eexists. split; [eassumption|].
      apply ok_raises_iff. eexists; eassumption.
  - intros (errors & st1 & Hreach & Hcause).
    rewrite (query_automatic W input task parameters st st1 errors Hreach).
    rewrite automatic_unfold.
    destruct Hcause as [Hfail | (r & Hr & Ht & Hn)].
    + apply response_raises_iff in Hfail as [e He]. rewrite He.
      eexists; eexists; reflexivity.
    + rewrite Hr.
      destruct (proj2 (ok_raises_iff r) (conj Ht Hn)) as [e He]. rewrite He.
      eexists; eexists; reflexivity.
Qed.

Lemma query_raises_exactly_at_the_decision_call_witness :
  exists e st', query list_world "x" None None initial = (Raise e, st').
Proof.
  apply (proj2 (query_raises_exactly_at_the_decision_call list_world "x" None
                  None initial)).
  exists [], initial.
  split; [apply reaches_without_task; reflexivity|].
  right. exists (VList [VInt 1]).
  split; [reflexivity|]. split; [reflexivity|]. intros kv H; discriminate.
Defined.

(** ** Parameters without a recognised task *)

(** X11.  The parameters have an effect only when the task is a recognised
    one: without a task, with an empty task string or with a task that is
    not recognised, [query] does the same whatever the parameters are.  An
    empty task string is treated as no task at all. *)
Theorem parameters_matter_only_for_a_recognised_task
    (W : World) (input : string) (task : option string)
    (parameters parameters' : option dict) (st : state) :
  (forall t, explicit task = Some t -> ~ recognised t) ->
  query W input task parameters st = query W input task parameters' st
  /\ query W input (Some "") parameters st = query W input None parameters' st.
Proof.
  intros Hn. split.
  - destruct (explicit task) as [t|] eqn:Ht.
    + pose proof (execute_unknown W t (params_of parameters) (trace_of W) st
                    (Hn t eq_refl)) as Hx.
      pose proof (execute_unknown W t (params_of parameters') (trace_of W) st
                    (Hn t eq_refl)) as Hx'.
      rewrite (query_automatic W input task parameters st st _
                 (reaches_after_failure W task parameters st t _ st Ht Hx)).
      rewrite (query_automatic W input task parameters' st st _
                 (reaches_after_failure W task parameters' st t _ st Ht Hx')).
      reflexivity.
    + rewrite (query_automatic W input task parameters st st []
                 (reaches_without_task W task parameters st Ht)).
      rewrite (query_automatic W input task parameters' st st []
                 (reaches_without_task W task parameters' st Ht)).
      reflexivity.
  - reflexivity.
Qed.

Lemma parameters_matter_only_for_a_recognised_task_witness :
  query quiet_world "x" (Some "unknown.foo") (Some [("a", VInt 1)]) initial
  = query quiet_world "x" (Some "unknown.foo") None initial.
Proof.
  apply (parameters_matter_only_for_a_recognised_task quiet_world "x"
           (Some "unknown.foo") (Some [("a", VInt 1)]) None initial).
  intros t Ht. injection Ht as <-. exact unknown_foo_not_recognised.
Defined.

(** ** The records of an envelope *)

(** X12.  In every envelope [query] returns, each entry of [toolCalls] is a
    mapping with exactly the keys [task], [params] and [result], where
    [task] is a string and [params] a mapping, and each entry of [errors]
    is a mapping with exactly the keys [task] and [message], both strings.
    There are at most two errors, and the first tool call is that of the
    explicit task or that of the decision analysis. *)
Theorem entries_of_an_envelope_are_records
    (W : World) (input : string) (task : option string)
    (parameters : option dict) (st st' : state) (env : value) :
  query W input task parameters st = (Return env, st') ->
  (forall tc, In tc (entries "toolCalls" env) ->
     keys tc = ["task"; "params"; "result"]
     /\ (exists name, field "task" tc = Some (VStr name))
     /\ exists params, field "params" tc = Some (VDict params))
  /\ (forall er, In er (entries "errors" env) ->
        keys er = ["task"; "message"]
        /\ exists name message,
             field "task" er = Some (VStr name)
             /\ field "message" er = Some (VStr message))
  /\ List.length (entries "errors" env) <= 2
  /\ exists first others,
       entries "toolCalls" env = first :: others
       /\ (field "task" first = Some (VStr "decision.analyze_situation")
           \/ exists t, explicit task = Some t
                        /\ field "task" first = Some (VStr t)).
Proof.
  intros Hq. pose proof (query_runs W input task parameters st) as Hrun.
  rewrite Hq in Hrun.
  assert (Htc : forall name params result,
            keys (tool_call name params result) = ["task"; "params"; "result"]
            /\ (exists n, field "task" (tool_call name params result)
                          = Some (VStr n))
            /\ exists p, field "params" (tool_call name params result)
                         = Some (VDict p)).
  { intros. split; [reflexivity|]. split; eexists; reflexivity. }
  assert (Her : forall name message,
            keys (error_record name message) = ["task"; "message"]
            /\ exists n m,
                 field "task" (error_record name message) = Some (VStr n)
                 /\ field "message" (error_record name message)
                    = Some (VStr m)).
  { intros. split; [reflexivity|]. eexists; eexists; split; reflexivity. }
  inversion Hrun as [t result st1 Ht Hx | errors st1 o Hreach Hauto]; subst.
  - cbn. split; [|split; [|split]].
    + intros tc [<- | []]. apply Htc.
    + intros er [].
    + lia.
    + eexists; eexists; split; [reflexivity|]. right. now exists t.
  - assert (Herrs : List.length errors <= 1
                    /\ forall er, In er errors ->
                         keys er = ["task"; "message"]
                         /\ exists n m,
                              field "task" er = Some (VStr n)
                              /\ field "message" er = Some (VStr m)).
    { destruct Hreach; (split; [simpl; lia|]).
      - intros er [].
      - intros er [<- | []]. apply Her. }
    destruct Herrs as [Hlen Hold].
    inversion Hauto; subst; inline_locals; cbn;
      (split; [intros tc Hin; cbn in Hin;
               repeat (destruct Hin as [<- | Hin]; [apply Htc|]);
               contradiction|]);
      (split; [intros er Hin;
               try (apply in_app_or in Hin as [Hin | [<- | []]];
                    [now apply Hold | apply Her]);
               try (now apply Hold)|]);
      (split; [rewrite ?length_app; simpl; lia|]);
      eexists; eexists; (split; [reflexivity|]); left; reflexivity.
Qed.

Lemma entries_of_an_envelope_are_records_witness :
  List.length
    (entries "errors" (returned (query failing_world "x" (Some "unknown.foo")
                                   None initial))) <= 2.
Proof.
  apply (entries_of_an_envelope_are_records failing_world "x"
           (Some "unknown.foo") None initial
           (snd (query failing_world "x" (Some "unknown.foo") None initial))
           (returned (query failing_world "x" (Some "unknown.foo") None
                        initial)) eq_refl).
Defined.

(** ** The context that is recorded *)



(** ** What [_safe_slice] leaves as it is *)

(** The three shapes of the escape of one character: the character itself,
    a backslash and a letter, or [\u00] and two hexadecimal digits. *)
Lemma json_escape_cases (c : ascii) :
  (json_escape c = String c ""
   /\ Ascii.eqb c dquote = false /\ Ascii.eqb c backslash = false
   /\ (code c <? 32)%nat = false)
  \/ (exists x,
        json_escape c = String backslash (String x "")
        /\ Ascii.eqb x "u" = false /\ unescape x = Some c)
  \/ (exists h1 h2,
        json_escape c
        = String backslash
            (String "u" (String "0" (String "0" (String h1 (String h2 "")))))
        /\ hex4 "0" "0" h1 h2 = Some (code c)
        /\ (code c <? 256)%nat = true
        /\ ascii_of_nat (code c) = c).
Proof.
  destruct c as [[] [] [] [] [] [] [] []];
    first
      [ left; repeat split; vm_compute; reflexivity
      | right; left; eexists; split; [vm_compute; reflexivity|];
        split; vm_compute; reflexivity
      | right; right; eexists; eexists; split; [vm_compute; reflexivity|];
        repeat split; vm_compute; reflexivity ].
Qed.

(** Reading back an escaped text up to its closing quotation mark. *)
Lemma scan_string_escaped (s r : string) :
  scan_string (json_escape_all s ++ String dquote r) = Some (s, r).
Proof.
  induction s as [|c s IH]; [reflexivity|].
  cbn [json_escape_all]. rewrite append_assoc.
  destruct (json_escape_cases c)
    as [(-> & Hq & Hb & Hc) | [(x & -> & Hu & Hx) | (h1 & h2 & -> & Hh & Hn & Ha)]].
  - cbn [append scan_string]. rewrite Hq, Hb, Hc, IH. reflexivity.
  - cbn [append scan_string]. change (Ascii.eqb backslash dquote) with false.
    change (Ascii.eqb backslash backslash) with true. cbn iota.
    rewrite Hu, Hx, IH. reflexivity.
  - cbn [append scan_string]. change (Ascii.eqb backslash dquote) with false.
    change (Ascii.eqb backslash backslash) with true.
    change (Ascii.eqb "u" "u") with true. cbn iota.
    rewrite Hh, Hn, IH, Ha. reflexivity.
Qed.

(** A text cut before its closing quotation mark is not read. *)
Lemma scan_string_cut (s p q : string) :
  json_escape_all s = p ++ q -> scan_string p = None.
Proof.
  revert p q; induction s as [|c s IH]; intros p q H.
  - destruct p; [reflexivity | discriminate].
  - cbn [json_escape_all] in H.
    destruct (json_escape_cases c)
      as [(Hj & Hq & Hb & Hc) | [(x & Hj & Hu & Hx) | (h1 & h2 & Hj & Hh & Hn & Ha)]];
      rewrite Hj in H; cbn [append] in H.
    + destruct p as [|a p]; [reflexivity|].
      cbn [append] in H. injection H as <- H.
      cbn [scan_string]. rewrite Hq, Hb, Hc, (IH p q H). reflexivity.
    + destruct p as [|a p]; [reflexivity|].
      cbn [append] in H. injection H as <- H.
      destruct p as [|a p]; [reflexivity|].
      cbn [append] in H. injection H as <- H.
      cbn [scan_string]. change (Ascii.eqb backslash dquote) with false.
      change (Ascii.eqb backslash backslash) with true. cbn iota.
      rewrite Hu, Hx, (IH p q H). reflexivity.
    + do 6 (destruct p as [|? p];
            [reflexivity | cbn [append] in H; injection H as <- H]).
      cbn [scan_string]. change (Ascii.eqb backslash dquote) with false.
      change (Ascii.eqb backslash backslash) with true.
      change (Ascii.eqb "u" "u") with true. cbn iota.
      rewrite Hh, Hn, (IH p q H). reflexivity.
Qed.

(** A proper prefix of a text that ends in one more character is a prefix
    of the text before that character. *)
Lemma prefix_before_last (a : string) (c : ascii) (p q : string) :
  a ++ String c "" = p ++ q -> q <> "" -> exists q', a = p ++ q'.
Proof.
  revert p; induction a as [|x a IH]; intros p H Hq.
  - destruct p as [|y p]; [now exists ""|].
    cbn in H. injection H as _ H. destruct p; [|discriminate].
    cbn in H. now subst q.
  - destruct p as [|y p]; [now exists (String x a)|].
    cbn in H. injection H as <- H.
    destruct (IH p H Hq) as [q' ->]. now exists q'.
Qed.

Lemma take_cut (n : nat) (s : string) :
  (n <? String.length s)%nat = true ->
  exists q, s = take n s ++ q /\ q <> "".
Proof.
  intros Hlt. apply Nat.ltb_lt in Hlt.
  destruct (take_prefix n s) as [q Hq]. exists q. split; [exact Hq|].
  intros ->. pose proof (take_length n s) as Hl.
  rewrite append_nil in Hq. rewrite <- Hq in Hl. lia.
Qed.

Lemma loads_none (t : string) :
  (forall fuel, parse_value fuel (skip_ws t) = None) -> loads t = None.
Proof. intros H. unfold loads. now rewrite H. Qed.

(** A JSON string that is cut anywhere is not JSON. *)
Lemma cut_string_unparsable (s p q : string) :
  dumps (VStr s) = p ++ q -> q <> "" -> loads p = None.
Proof.
  cbn [dumps]. unfold encode_str. cbn [append]. intros H Hq.
  destruct p as [|a p]; [reflexivity|].
  cbn [append] in H. injection H as <- H.
  destruct (prefix_before_last _ _ _ _ H Hq) as [q' Hq'].
  pose proof (scan_string_cut s p q' Hq') as Hscan.
  apply loads_none. intros fuel. change (skip_ws (String dquote p))
    with (String dquote p).
  destruct fuel as [|fuel]; [reflexivity|].
  cbn [parse_value]. change (Ascii.eqb dquote dquote) with true. cbn iota.
  now rewrite Hscan.
Qed.

Lemma dumps_wrapper (text : string) :
  dumps (text_wrapper text)
  = wrapper_head ++ (json_escape_all text ++ String dquote "") ++ "}".
Proof.
  cbn. unfold encode_str. cbn. now rewrite append_assoc.
Qed.

(** Reading the text of a [text_wrapper] whose body is replaced by [p]:
    the reader gets to the body and goes on as the body lets it. *)
Lemma wrapper_parse (fuel : nat) (p : string) :
  parse_value (S (S (S (S fuel)))) (wrapper_head ++ p)
  = match
      match scan_string p with
      | Some (t, rest) => Some (VStr t, rest)
      | None => None
      end
    with
    | Some (v, rest) =>
        member_end (S fuel) "text" v [("success", VBool true)] rest
    | None => None
    end.
Proof. reflexivity. Qed.

Lemma wrapper_cut_in_text (p : string) (fuel : nat) :
  scan_string p = None -> parse_value fuel (wrapper_head ++ p) = None.
Proof.
  intros Hscan. destruct fuel as [|[|[|[|fuel]]]]; try reflexivity.
  now rewrite wrapper_parse, Hscan.
Qed.

Lemma wrapper_cut_before_brace (text : string) (fuel : nat) :
  parse_value fuel (wrapper_head ++ json_escape_all text ++ String dquote "")
  = None.
Proof.
  destruct fuel as [|[|[|[|fuel]]]]; try reflexivity.
  now rewrite wrapper_parse, scan_string_escaped.
Qed.

(** The text of a [text_wrapper] that is cut anywhere is not JSON. *)
Lemma cut_wrapper_unparsable (text : string) (n : nat) :
  (n <? String.length (dumps (text_wrapper text)))%nat = true ->
  loads (take n (dumps (text_wrapper text))) = None.
Proof.
  intros Hlt.
  do 27 (destruct n as [|n]; [vm_compute; reflexivity|]).
  rewrite dumps_wrapper in *.
  set (X := (json_escape_all text ++ String dquote "") ++ "}") in *.
  assert (Hx : (n <? String.length X)%nat = true).
  { apply Nat.ltb_lt. apply Nat.ltb_lt in Hlt.
    rewrite append_length in Hlt. cbn in Hlt. lia. }
  match goal with
  | |- loads ?t = None => change t with (wrapper_head ++ take n X)
  end.
  destruct (take_cut n X Hx) as (q & Hq & Hne).
  destruct (prefix_before_last _ _ _ _ Hq Hne) as [q' Hq'].
  apply loads_none. intros fuel.
  change (skip_ws (wrapper_head ++ take n X)) with (wrapper_head ++ take n X).
  destruct q' as [|c q'].
  - rewrite append_nil in Hq'. rewrite <- Hq'.
    apply wrapper_cut_before_brace.
  - apply wrapper_cut_in_text.
    assert (Hc : String c q' <> "") by discriminate.
    destruct (prefix_before_last _ _ _ _ Hq' Hc) as [q'' Hq''].
    exact (scan_string_cut text _ q'' Hq'').
Qed.

(** X9.  Whatever the limit, [_safe_slice] returns a string as it is, and
    returns as it is the mapping [{"success": true, "text": body}] that
    [_post_json] builds for a body that is not JSON: the text cut at the
    limit never parses.  So the [result] recorded for such a response is
    the whole response, of any length. *)
Theorem safe_slice_keeps_strings_and_text_wrappers
    (limit : nat) (text : string) :
  _safe_slice_limit (VStr text) limit = VStr text
  /\ _safe_slice_limit (text_wrapper text) limit = text_wrapper text
  /\ _safe_slice (VStr text) = VStr text
  /\ _safe_slice (text_wrapper text) = text_wrapper text
  /\ forall task params,
       field "result" (tool_call task params (text_wrapper text))
       = Some (text_wrapper text).
Proof.
  assert (Hs : forall l, _safe_slice_limit (VStr text) l = VStr text).
  { intros l. unfold _safe_slice_limit.
    destruct (l <? String.length (dumps (VStr text)))%nat eqn:Hlt;
      [|reflexivity].
    destruct (take_cut _ _ Hlt) as (q & Hq & Hne).
    now rewrite (cut_string_unparsable text _ q Hq Hne). }
  assert (Hw : forall l,
            _safe_slice_limit (text_wrapper text) l = text_wrapper text).
  { intros l. unfold _safe_slice_limit.
    destruct (l <? String.length (dumps (text_wrapper text)))%nat eqn:Hlt;
      [|reflexivity].
    now rewrite (cut_wrapper_unparsable text l Hlt). }
  split; [apply Hs|]. split; [apply Hw|]. split; [apply Hs|].
  split; [apply Hw|].
  intros task params. unfold tool_call, _safe_slice. rewrite Hw. reflexivity.
Qed.

(** ** Timestamps *)

Lemma padded_below (width bound : nat) :
  forallb (padded_ok width) (seq 0 bound) = true ->
  forall n, (0 <= n < Z.of_nat bound)%Z ->
    digits width (zfill width (str_of_int n)).
Proof.
  intros Hall n Hn.
  assert (Hin : In (Z.to_nat n) (seq 0 bound)) by (apply in_seq; lia).
  pose proof (proj1 (forallb_forall _ _) Hall _ Hin) as Hok.
  unfold padded_ok in Hok. rewrite Z2Nat.id in Hok by lia.
  apply andb_true_iff in Hok as [Hlen Hdig].
  apply Nat.eqb_eq in Hlen. now split.
Qed.

Lemma year_digits (y : Z) :
  (0 <= y <= 9999)%Z -> digits 4 (zfill 4 (str_of_int y)).
Proof.
  intros Hy. apply (padded_below 4 10000); [vm_compute; reflexivity|].
  change (Z.of_nat 10000) with 10000%Z. lia.
Qed.

Lemma two_digits (n : Z) : (0 <= n <= 99)%Z -> digits 2 (two n).
Proof.
  intros Hn. apply (padded_below 2 100); [vm_compute; reflexivity|].
  change (Z.of_nat 100) with 100%Z. lia.
Qed.

(** The date of a day that [datetime] can hold. *)
Lemma civil_bounds (days : Z) :
  (-719162 <= days <= 2932896)%Z ->
  match civil_from_days days with
  | (y, m, d) => (1 <= y <= 9999 /\ 1 <= m <= 12 /\ 1 <= d <= 31)%Z
  end.
Proof.
  intros Hd. unfold civil_from_days. cbv zeta.
  match goal with
  | |- context [(?a <? 10)%Z] => destruct (Z.ltb_spec a 10)
  end;
    match goal with
    | |- context [(?a <=? 2)%Z] => destruct (Z.leb_spec a 2)
    end;
    Z.div_mod_to_equations; lia.
Qed.

Lemma isoformat_shape (t : Z) :
  (first_second <= t <= last_second)%Z -> iso_timestamp (isoformat t ++ "Z").
Proof.
  unfold first_second, last_second. intros Ht. unfold isoformat.
  assert (Hdays : (-719162 <= t / 86400 <= 2932896)%Z)
    by (Z.div_mod_to_equations; lia).
  pose proof (civil_bounds (t / 86400) Hdays) as Hc.
  destruct (civil_from_days (t / 86400)) as [[y m] d].
  destruct Hc as (Hy & Hm & Hd).
  exists (zfill 4 (str_of_int y)), (two m), (two d),
    (two (t mod 86400 / 3600)), (two (t mod 86400 mod 3600 / 60)),
    (two (t mod 86400 mod 60)).
  split; [now rewrite !append_assoc|].
  split; [apply year_digits; lia|].
  split; [apply two_digits; lia|].
  split; [apply two_digits; lia|].
  split; [apply two_digits; Z.div_mod_to_equations; lia|].
  split; apply two_digits; Z.div_mod_to_equations; lia.
Qed.

(** X13.  When the clock reading, and the reading moved by the given
    number of days, are instants a [datetime] can hold, [_iso_now] and
    [_iso_in_days] return a text of the form [YYYY-MM-DDTHH:MM:SSZ], all
    digits but for the separators, 20 characters long.  Each reads the
    clock once and makes no call, and [_iso_in_days(0)] gives what
    [_iso_now] gives for the same reading. *)
Theorem timestamps_are_iso_utc (W : World) (st : state) (days : Z) :
  (first_second <= utcnow W (clock_reads st) <= last_second)%Z ->
  (first_second <= utcnow W (clock_reads st) + days * 86400
   <= last_second)%Z ->
  let st' := {| calls := calls st; clock_reads := S (clock_reads st) |} in
  (exists s, _iso_now W st = (Return s, st')
             /\ iso_timestamp s /\ String.length s = 20)
  /\ (exists s, _iso_in_days W days st = (Return s, st')
                /\ iso_timestamp s /\ String.length s = 20)
  /\ _iso_in_days W 0 st = _iso_now W st.
Proof.
  intros Hnow Hthen st'.
  assert (Hlen : forall s, iso_timestamp s -> String.length s = 20).
  { intros s (Y & M & D & h & m & sec & -> & [HY _] & [HM _] & [HD _]
              & [Hh _] & [Hm _] & [Hs _]).
    rewrite !append_length, HY, HM, HD, Hh, Hm, Hs. reflexivity. }
  split; [|split].
  - eexists. split; [reflexivity|].
    pose proof (isoformat_shape _ Hnow) as Hs. split; [exact Hs|].
    now apply Hlen.
  - eexists. split; [reflexivity|].
    pose proof (isoformat_shape _ Hthen) as Hs. split; [exact Hs|].
    now apply Hlen.
  - unfold _iso_in_days, _iso_now. change (0 * 86400)%Z with 0%Z.
    now rewrite Z.add_0_r.
Qed.

Lemma timestamps_are_iso_utc_witness :
  exists s,
    _iso_in_days quiet_world 7 initial
    = (Return s, {| calls := calls initial;
                    clock_reads := S (clock_reads initial) |})
    /\ iso_timestamp s /\ String.length s = 20.
Proof.
  assert (Hnow : (first_second <= utcnow quiet_world (clock_reads initial)
                  <= last_second)%Z) by (vm_compute; split; discriminate).
  assert (Hthen : (first_second
                   <= utcnow quiet_world (clock_reads initial) + 7 * 86400
                   <= last_second)%Z) by (vm_compute; split; discriminate).
  exact (proj1 (proj2 (timestamps_are_iso_utc quiet_world initial 7 Hnow
                         Hthen))).
Defined.

(** ** The engine id of a deployment *)

Lemma last_segment_no_separator (sep : ascii) (s : string) :
  contains sep (last_segment sep s) = false.
Proof.
  induction s as [|c r IH]; [reflexivity|].
  cbn [last_segment]. destruct (contains sep r) eqn:Hr; [exact IH|].
  destruct (Ascii.eqb c sep) eqn:Hc; [exact Hr|].
  cbn [contains]. now rewrite Hc, Hr.
Qed.

Lemma last_segment_suffix (sep : ascii) (s : string) :
  last_segment sep s = s
  \/ exists before, s = before ++ String sep (last_segment sep s).
Proof.
  induction s as [|c r IH]; [now left|].
  cbn [last_segment]. destruct (contains sep r) eqn:Hr.
  - right. destruct IH as [Heq | [before Hb]].
    + (* the separator occurs in [r], so [r] is not its own last segment *)
      exfalso. pose proof (last_segment_no_separator sep r) as Hn.
      rewrite Heq in Hn. congruence.
    + exists (String c before). cbn [append]. now rewrite <- Hb.
  - destruct (Ascii.eqb c sep) eqn:Hc; [|now left].
    apply Ascii.eqb_eq in Hc; subst c. right. now exists "".
Qed.

(** X14.  The engine id that [deploy_custom] returns is the part of the
    resource name after its last slash: it holds no slash, the resource
    name is either the id itself or ends in a slash and the id, and the
    console URL is the fixed prefix, the id and the project id. *)
Theorem engine_id_is_the_last_segment (W : World) (resource_name : string) :
  exists engine_id,
    assoc "engine_id" (deploy_info W resource_name) = Some engine_id
    /\ contains "/" engine_id = false
    /\ (resource_name = engine_id
        \/ exists before, resource_name = before ++ "/" ++ engine_id)
    /\ (contains "/" resource_name = false -> engine_id = resource_name)
    /\ assoc "console_url" (deploy_info W resource_name)
       = Some ("https://console.cloud.google.com/vertex-ai/reasoning-engines/"
                 ++ engine_id ++ "?project=" ++ PROJECT_ID W).
Proof.
  exists (last_segment "/" resource_name).
  split; [reflexivity|]. split; [apply last_segment_no_separator|].
  split; [|split; [|reflexivity]].
  - destruct (last_segment_suffix "/" resource_name) as [Heq | [before Hb]].
    + left. now rewrite Heq.
    + right. now exists before.
  - intros Hn. destruct (last_segment_suffix "/" resource_name)
      as [Heq | [before Hb]]; [exact Heq|].
    exfalso. rewrite Hb in Hn.
    assert (Hc : forall a b, contains "/" (a ++ String "/" b) = true).
    { intros a b. induction a as [|x a IHa]; [reflexivity|].
      cbn [append contains]. rewrite IHa. apply orb_true_r. }
    rewrite Hc in Hn. discriminate.
Qed.

Lemma engine_id_is_the_last_segment_witness :
  assoc "engine_id"
    (deploy_info quiet_world
       "projects/184930122798/locations/asia-northeast1/reasoningEngines/42")
  = Some "42".
Proof.
  destruct (engine_id_is_the_last_segment quiet_world
              "projects/184930122798/locations/asia-northeast1/reasoningEngines/42")
    as (engine_id & Hid & _).
  rewrite Hid. vm_compute in Hid. injection Hid as <-. reflexivity.
Defined.

(** ** The follow-up call that returns *)

(** X15.  On the automatic path, when the decision result counts as a
    success, the heuristic gives a pair and the follow-up call comes back
    with any value, the envelope has the two tool calls, the decision
    result as output and the errors it had before the follow-up.  A failure
    value is no exception to that: after an HTTP error on the follow-up
    call, nothing is added to the errors. *)
Theorem follow_up_value_is_never_an_error
    (W : World) (input : string) (task : option string)
    (parameters : option dict) (st st1 st2 : state) (errors : list value)
    (r v : value) (action_task : string) (action_params : dict) :
  reaches_analysis W task parameters st errors st1 ->
  let req := decision_request W input (trace_of W) in
  let rep := answer W st1 req in
  let req2 := follow_up_request W action_task action_params (trace_of W) in
  let rep2 := answer W st2 req2 in
  response_value rep = Return r ->
  _ok r = Return true ->
  _suggest_next_action W r (record_call st1 req rep)
  = (Return (Some (action_task, action_params)), st2) ->
  response_value rep2 = Return v ->
  query W input task parameters st
  = (Return (envelope (trace_of W) input
               (routed_by_the_pair task (Some (action_task, action_params)))
               [decision_record input r;
                tool_call action_task action_params v] r errors),
     record_call st2 req2 rep2)
  /\ (forall code reason, rep2 = HTTPError code reason ->
        v = http_failure code reason /\ _ok v = Return false).
Proof.
  intros Hreach req rep req2 rep2 Hr Hok Hs Hv.
  rewrite suggest_run in Hs. injection Hs as Hpair Hst.
  split.
  - rewrite (query_automatic W input task parameters st st1 errors Hreach).
    rewrite automatic_unfold. fold req; fold rep. rewrite Hr, Hok, Hpair.
    rewrite (follow_up_unfold W action_task action_params (trace_of W) _ _ _
               (suggestion_tasks W r _ action_task action_params Hpair)).
    rewrite Hst. fold req2; fold rep2. rewrite Hv.
    now rewrite final_routed_task_explicit.
  - intros code reason Hrep. rewrite Hrep in Hv. cbn in Hv.
    injection Hv as <-. split; reflexivity.
Qed.

Lemma follow_up_value_is_never_an_error_witness :
  query mixed_world "x" None None initial
  = (Return (envelope (trace_of mixed_world) "x"
               (routed_by_the_pair None (Some ("gmail.search_emails", gmail_params)))
               [decision_record "x" (text_wrapper "hello");
                tool_call "gmail.search_emails" gmail_params
                  (http_failure 500 "Internal Server Error")]
               (text_wrapper "hello") []),
     record_call
       (record_call initial
          (decision_request mixed_world "x" (trace_of mixed_world))
          (Body "hello"))
       (follow_up_request mixed_world "gmail.search_emails" gmail_params
          (trace_of mixed_world))
       (HTTPError 500 "Internal Server Error")).
Proof.
  exact (proj1 (follow_up_value_is_never_an_error mixed_world "x" None None
                  initial initial
                  (record_call initial
                     (decision_request mixed_world "x" (trace_of mixed_world))
                     (Body "hello"))
                  [] (text_wrapper "hello")
                  (http_failure 500 "Internal Server Error")
                  "gmail.search_emails" gmail_params
                  (reaches_without_task mixed_world None None initial eq_refl)
                  eq_refl eq_refl eq_refl eq_refl)).
Defined.
